(** * FLEX.JS: a shallow embedding of [src/Lexer.js]

    The development follows the layout of the JavaScript class:
    JavaScript values and string primitives, the rule and scanner records,
    an error/state monad for the methods, the configuration API, the Action
    API, the scan driver ([scan], [lex], [lexAll]) and finally the
    properties of the scanner.

    Modelling conventions.
    - A JavaScript number that the class uses as a cursor or a length is a
      [Z]; a string is a [string] whose characters are the code units.
    - The object literals [states] and [rules] are used as dictionaries: a
      finite map ([gmap string _]) holds their entries, and a lookup
      [obj[key]] also sees the members every object inherits from
      [Object.prototype] ([inherited]).  An inherited member is a function or
      an object: it is truthy, it is no array and it has no enumerable
      property.
    - The record that [addState] assigns under the key [__proto__] becomes
      the prototype of [states], not an entry of its own.  The map keeps it
      under that key, which is what a lookup under that name returns, and
      lookups see its two members [name] and [exclusive] ([proto_member]).
    - The order in which [for ... in] visits the keys of [states] is not
      recorded.  Where the scanner a call leaves depends on that order, or
      on a prototype that an enumeration passes over, the model gives no
      outcome ([unmodelled]); where only the text of an error message does,
      the message names the states in the order of the map.
    - [definitions] is an [Array] used as a dictionary: the list holds its
      enumerable named properties in the order of their creation; the keys
      [length] and [__proto__] are the two an array does not store as such.
    - The values that cross the API are [undefined], [null], the booleans,
      the strings and the integers; the text of a number is modelled for the
      safe integers only ([js_to_string]).
    - [undefined] is [None] where a field or an argument may be absent.
    - User actions are finite interaction trees over the Action API.
    - The regular-expression engine of the host is a parameter
      ([RegExpEngine]); [MiniEngine] instantiates it for a small fragment of
      the syntax so that configurations can be run. *)

From Stdlib Require Import ZArith Ascii String List Lia Bool.
From stdpp Require Import base option list strings gmap fin_maps pretty.

Open Scope string_scope.
Open Scope list_scope.
Open Scope Z_scope.

(** ** JavaScript values and string primitives *)

Inductive JSVal : Type :=
| VUndefined
| VNull
| VBool (b : bool)
| VNum (n : Z)
| VStr (s : string).

(** [Number.MAX_SAFE_INTEGER], 2^53 - 1. *)
Definition MAX_SAFE_INTEGER : Z := 9007199254740991.

(** The integers every one of which is a [Number] of its own, and which
    [ToString] prints digit by digit. *)
Definition is_safe_integer (n : Z) : bool := Z.abs n <=? MAX_SAFE_INTEGER.

(** [ToString] on the modelled values, as used by the [+] operator.  Beyond
    the safe integers the text of a number is that of the nearest double, in
    exponent form from 1e21 on: the model gives none. *)
Definition js_to_string (v : JSVal) : option string :=
  match v with
  | VUndefined => Some "undefined"
  | VNull => Some "null"
  | VBool true => Some "true"
  | VBool false => Some "false"
  | VNum n => if is_safe_integer n then Some (pretty n) else None
  | VStr s => Some s
  end.

Definition js_is_string (v : JSVal) : bool :=
  match v with VStr _ => true | _ => false end.

(** A string-valued field that may still be [undefined]. *)
Definition js_str (t : option string) : string :=
  match t with Some s => s | None => "undefined" end.

Definition chars (s : string) : list ascii := list_ascii_of_string s.

Definition js_length (s : string) : Z := Z.of_nat (String.length s).

(** [String.prototype.substr(start, length)]. *)
Definition js_substr (s : string) (start : Z) (len : option Z) : string :=
  let size := js_length s in
  let intStart := if start <? 0 then Z.max (size + start) 0 else Z.min start size in
  let intLength := match len with None => size | Some n => n end in
  let intLength := Z.min (Z.max intLength 0) size in
  let intEnd := Z.min (intStart + intLength) size in
  substring (Z.to_nat intStart) (Z.to_nat (intEnd - intStart)) s.

(** [String.prototype.charAt(pos)]. *)
Definition js_charAt (s : string) (pos : Z) : string :=
  if (pos <? 0) || (js_length s <=? pos) then ""
  else match String.get (Z.to_nat pos) s with
       | Some c => String c ""
       | None => ""
       end.

Fixpoint js_join (sep : string) (l : list string) : string :=
  match l with
  | [] => ""
  | [x] => x
  | x :: rest => x +:+ sep +:+ js_join sep rest
  end.

(** ** Regular expressions *)

(** A [RegExp] object is known to the class through its [source] and
    [flags] only; matching is delegated to the engine. *)
Record RegExp : Type := mkRegExp {
  re_source : string;
  re_flags : string
}.

(** The host engine.  [regexp_exec re input lastIndex] is
    [re.lastIndex = lastIndex; re.exec(input)] projected on the matched
    text; [regexp_replace_all pat flags s repl] is
    [s.replace(new RegExp(pat, flags), repl)]. *)
Class RegExpEngine : Type := {
  regexp_exec : RegExp -> string -> Z -> option string;
  regexp_replace_all : string -> string -> string -> string -> string
}.

(** ** Actions *)

(** One call of the Action API, or an access to a field that the class
    documents as available to actions. *)
Inductive Call : Type :=
| CDiscard
| CEcho
| CBegin (newState : option string)
| CReject
| CMore
| CLess (n : Z)
| CUnput (s : JSVal)
| CInput (n : option Z)
| CTerminate
| CRestart (newSource : option string)
| CPushState (newState : string)
| CTopState
| CPopState
| CSwitchState (newState : option string)
| CGetText
| CSetText (s : string)
| CGetState
| CGetIndex
| CGetSource.

(** A user action: it returns a value, throws, or performs a call and
    continues with the value the call returned. *)
Inductive Act : Type :=
| Return (v : JSVal)
| Raise (msg : string)
| Do (c : Call) (k : JSVal -> Act).

(** ** Rules, states and the scanner object *)

Record Rule : Type := mkRule {
  expression : option RegExp;   (* null for an EOF rule *)
  hasBOL : bool;                (* null (EOF rule) is falsy: false *)
  hasEOL : bool;
  isEOF : bool;
  action : option Act;
  fixedWidth : option Z         (* undefined unless the pattern is a string *)
}.

Record StateRec : Type := mkState {
  name : string;
  exclusive : bool
}.

Record Lexer : Type := mkLexer {
  (* configuration *)
  states : gmap string StateRec;
  definitions : list (string * string);
  rules : gmap string (list Rule);
  ignoreCase : bool;
  debugEnabled : bool;
  (* runtime state *)
  source : string;
  index : Z;
  text : option string;
  state : string;
  ruleIndex : option nat;
  readMore : bool;
  stateStack : list string;
  rejectedRules : list (option nat);
  (* the collaborators: what echo() wrote and what console.log received *)
  output : list (option string);
  console : list string
}.

Definition STATE_INITIAL : string := "INITIAL".
Definition STATE_ANY : string := "*".
Definition RULE_EOF : string := "<<EOF>>".
Definition EOF : JSVal := VNum 0.

Definition set_states v (l : Lexer) : Lexer :=
  mkLexer v (definitions l) (rules l) (ignoreCase l) (debugEnabled l) (source l) (index l)
    (text l) (state l) (ruleIndex l) (readMore l) (stateStack l) (rejectedRules l)
    (output l) (console l).
Definition set_definitions v (l : Lexer) : Lexer :=
  mkLexer (states l) v (rules l) (ignoreCase l) (debugEnabled l) (source l) (index l)
    (text l) (state l) (ruleIndex l) (readMore l) (stateStack l) (rejectedRules l)
    (output l) (console l).
Definition set_rules v (l : Lexer) : Lexer :=
  mkLexer (states l) (definitions l) v (ignoreCase l) (debugEnabled l) (source l) (index l)
    (text l) (state l) (ruleIndex l) (readMore l) (stateStack l) (rejectedRules l)
    (output l) (console l).
Definition set_ignoreCase v (l : Lexer) : Lexer :=
  mkLexer (states l) (definitions l) (rules l) v (debugEnabled l) (source l) (index l)
    (text l) (state l) (ruleIndex l) (readMore l) (stateStack l) (rejectedRules l)
    (output l) (console l).
Definition set_debugEnabled v (l : Lexer) : Lexer :=
  mkLexer (states l) (definitions l) (rules l) (ignoreCase l) v (source l) (index l)
    (text l) (state l) (ruleIndex l) (readMore l) (stateStack l) (rejectedRules l)
    (output l) (console l).
Definition set_source v (l : Lexer) : Lexer :=
  mkLexer (states l) (definitions l) (rules l) (ignoreCase l) (debugEnabled l) v (index l)
    (text l) (state l) (ruleIndex l) (readMore l) (stateStack l) (rejectedRules l)
    (output l) (console l).
Definition set_index v (l : Lexer) : Lexer :=
  mkLexer (states l) (definitions l) (rules l) (ignoreCase l) (debugEnabled l) (source l) v
    (text l) (state l) (ruleIndex l) (readMore l) (stateStack l) (rejectedRules l)
    (output l) (console l).
Definition set_text v (l : Lexer) : Lexer :=
  mkLexer (states l) (definitions l) (rules l) (ignoreCase l) (debugEnabled l) (source l) (index l)
    v (state l) (ruleIndex l) (readMore l) (stateStack l) (rejectedRules l)
    (output l) (console l).
Definition set_state v (l : Lexer) : Lexer :=
  mkLexer (states l) (definitions l) (rules l) (ignoreCase l) (debugEnabled l) (source l) (index l)
    (text l) v (ruleIndex l) (readMore l) (stateStack l) (rejectedRules l)
    (output l) (console l).
Definition set_ruleIndex v (l : Lexer) : Lexer :=
  mkLexer (states l) (definitions l) (rules l) (ignoreCase l) (debugEnabled l) (source l) (index l)
    (text l) (state l) v (readMore l) (stateStack l) (rejectedRules l)
    (output l) (console l).
Definition set_readMore v (l : Lexer) : Lexer :=
  mkLexer (states l) (definitions l) (rules l) (ignoreCase l) (debugEnabled l) (source l) (index l)
    (text l) (state l) (ruleIndex l) v (stateStack l) (rejectedRules l)
    (output l) (console l).
Definition set_stateStack v (l : Lexer) : Lexer :=
  mkLexer (states l) (definitions l) (rules l) (ignoreCase l) (debugEnabled l) (source l) (index l)
    (text l) (state l) (ruleIndex l) (readMore l) v (rejectedRules l)
    (output l) (console l).
Definition set_rejectedRules v (l : Lexer) : Lexer :=
  mkLexer (states l) (definitions l) (rules l) (ignoreCase l) (debugEnabled l) (source l) (index l)
    (text l) (state l) (ruleIndex l) (readMore l) (stateStack l) v
    (output l) (console l).
Definition set_output v (l : Lexer) : Lexer :=
  mkLexer (states l) (definitions l) (rules l) (ignoreCase l) (debugEnabled l) (source l) (index l)
    (text l) (state l) (ruleIndex l) (readMore l) (stateStack l) (rejectedRules l)
    v (console l).
Definition set_console v (l : Lexer) : Lexer :=
  mkLexer (states l) (definitions l) (rules l) (ignoreCase l) (debugEnabled l) (source l) (index l)
    (text l) (state l) (ruleIndex l) (readMore l) (stateStack l) (rejectedRules l)
    (output l) v.

(** ** The method monad *)

Inductive JSError : Type :=
| Error (msg : string)
| TypeError (msg : string)
| RangeError (msg : string).

(** Outcome of a method call on the scanner object: a value and the object
    after the call, an exception and the object as the throw left it, or no
    outcome within the model: a loop that has used up its budget of
    iterations, or a call whose result depends on what the model does not
    record, a number conversion of the host or the order of an enumeration
    ([unmodelled]). *)
Inductive Res (A : Type) : Type :=
| Ok (a : A) (l : Lexer)
| Throw (e : JSError) (l : Lexer)
| Timeout.
Arguments Ok {A} a l.
Arguments Throw {A} e l.
Arguments Timeout {A}.

Definition M (A : Type) : Type := Lexer -> Res A.

Definition ret {A} (a : A) : M A := fun l => Ok a l.
Definition bind {A B} (m : M A) (k : A -> M B) : M B :=
  fun l => match m l with
           | Ok a l' => k a l'
           | Throw e l' => Throw e l'
           | Timeout => Timeout
           end.
Definition throw {A} (e : JSError) : M A := fun l => Throw e l.
Definition unmodelled {A} : M A := fun _ => Timeout.
Definition get : M Lexer := fun l => Ok l l.
Definition modify (f : Lexer -> Lexer) : M unit := fun l => Ok tt (f l).

Declare Scope js_scope.
Delimit Scope js_scope with js.
Notation "x <- m ;; k" := (bind m (fun x => k))
  (at level 100, m at next level, right associativity) : js_scope.
Notation "m ;;; k" := (bind m (fun _ => k))
  (at level 100, right associativity) : js_scope.
Open Scope js_scope.

Definition dquote : string := String (ascii_of_nat 34) EmptyString.

Definition blank : Lexer :=
  mkLexer ∅ [] ∅ false false "" 0 None "" None false [] [] [] [].

(** The object a method leaves behind, whatever its outcome. *)
Definition run_on {A} (m : M A) (l : Lexer) : Lexer :=
  match m l with
  | Ok _ l' => l'
  | Throw _ l' => l'
  | Timeout => l
  end.

(** ** Configuration API *)

(** [Lexer.prototype.reset] *)
Definition reset : M unit :=
  modify (set_source "");;;
  modify (set_index 0);;;
  modify (set_text None);;;
  modify (set_state STATE_INITIAL);;;
  modify (set_ruleIndex None);;;
  modify (set_readMore false);;;
  modify (set_stateStack []);;;
  modify (set_rejectedRules []).

(** [Lexer.prototype.addState]: [this.states[name] = {name, exclusive: !!exclusive}].
    Under the name [__proto__] the assignment installs the record as the
    prototype of [states]; the map keeps it under that key. *)
Definition addState (name : string) (exclusive : bool) : M unit :=
  modify (fun l => set_states (<[name := mkState name exclusive]> (states l)) l).

(** [Lexer.prototype.clear] *)
Definition clear : M unit :=
  modify (set_states ∅);;;
  modify (set_definitions []);;;
  modify (set_rules ∅);;;
  modify (set_ignoreCase false);;;
  modify (set_debugEnabled false);;;
  addState STATE_INITIAL false;;;
  reset.

(** [new Lexer()] *)
Definition newLexer : Lexer := run_on clear blank.

Definition setIgnoreCase (b : bool) : M unit := modify (set_ignoreCase b).
Definition setDebugEnabled (b : bool) : M unit := modify (set_debugEnabled b).

(** [idRegExp = /[a-z_][a-z0-9_-]*/i]: the characters of its two classes. *)
Definition is_id_start (c : ascii) : bool :=
  let n := nat_of_ascii c in
  ((65 <=? n) && (n <=? 90) || (97 <=? n) && (n <=? 122) || (n =? 95))%nat.
Definition is_id_char (c : ascii) : bool :=
  let n := nat_of_ascii c in
  (is_id_start c || (48 <=? n) && (n <=? 57) || (n =? 45))%nat.

(** [this.idRegExp.test(name)].  The expression carries neither [^] nor [$]
    and its tail may be empty, so the test succeeds as soon as one character
    of the string can start an identifier. *)
Definition idRegExp_test (s : string) : bool := existsb is_id_start (chars s).

(** The identifier grammar of the documentation, [[A-Za-z_][A-Za-z0-9_-]*],
    as a condition on the whole name; [idRegExp_test] is what the class
    evaluates. *)
Definition is_identifier (s : string) : bool :=
  match chars s with
  | [] => false
  | c :: rest => is_id_start c && forallb is_id_char rest
  end.

(** [Lexer.prototype.escapeRegExp]: [s.replace(/[.*+?^${}()|[\]\\]/g, '\\$&')] *)
Definition is_regexp_special (c : ascii) : bool :=
  existsb (Ascii.eqb c) (chars ".*+?^${}()|[]\").
Fixpoint escapeRegExp (s : string) : string :=
  match s with
  | EmptyString => EmptyString
  | String c rest =>
      if is_regexp_special c then String "\" (String c (escapeRegExp rest))
      else String c (escapeRegExp rest)
  end.

(** [Lexer.prototype.isRegExpMatchBOL]: [re.source.substr(0, 1) === '^'] *)
Definition isRegExpMatchBOL (re : RegExp) : bool :=
  String.eqb (js_substr (re_source re) 0 (Some 1)) "^".

(** [Lexer.prototype.isRegExpMatchEOL]: [re.source.substr(-1) === '$'] *)
Definition isRegExpMatchEOL (re : RegExp) : bool :=
  String.eqb (js_substr (re_source re) (-1) None) "$".

(** What the caller passes where a pattern is expected. *)
Inductive Expression : Type :=
| ExprString (s : string)
| ExprRegExp (re : RegExp)
| ExprOther (v : JSVal).

(** *** Plain objects and arrays used as dictionaries *)

(** The members of [Object.prototype], which a lookup on an object literal
    finds when the object has no key of its own by that name. *)
Definition object_prototype_names : list string :=
  ["constructor"; "hasOwnProperty"; "isPrototypeOf"; "propertyIsEnumerable";
   "toLocaleString"; "toString"; "valueOf"; "__proto__";
   "__defineGetter__"; "__defineSetter__"; "__lookupGetter__"; "__lookupSetter__"].

Definition inherited (key : string) : bool :=
  bool_decide (key ∈ object_prototype_names).

(** The truthy members that [states] inherits from the record installed as
    its prototype, when there is one: its [name] unless empty, its
    [exclusive] when set. *)
Definition proto_member (sts : gmap string StateRec) (key : string) : bool :=
  match sts !! "__proto__" with
  | Some st =>
      String.eqb key "name" && negb (String.eqb (name st) "")
      || String.eqb key "exclusive" && exclusive st
  | None => false
  end.

(** [!this.states[key]]: the lookup finds no entry, no member of the
    prototype installed by [addState] and no member of [Object.prototype]. *)
Definition unknown_state (l : Lexer) (key : string) : bool :=
  bool_decide (states l !! key = None)
  && negb (proto_member (states l) key)
  && negb (inherited key).

(** The characters [ToNumber] strips from both ends of a string, among the
    code units below 256. *)
Definition is_js_space (c : ascii) : bool :=
  let n := nat_of_ascii c in
  ((9 <=? n) && (n <=? 13) || (n =? 32) || (n =? 160))%nat.

Definition is_digit (c : ascii) : bool :=
  let n := nat_of_ascii c in ((48 <=? n) && (n <=? 57))%nat.

(** [this.definitions[name] = expression]: an existing key keeps its place
    in the enumeration order, a new one goes last. *)
Fixpoint assoc_set (k v : string) (d : list (string * string)) : list (string * string) :=
  match d with
  | [] => [(k, v)]
  | (k', v') :: rest => if String.eqb k k' then (k, v) :: rest else (k', v') :: assoc_set k v rest
  end.

(** [this.definitions[name] = expression] on the array [definitions], for a
    string [expression].
    - [__proto__]: the setter of the prototype ignores a string; nothing is
      stored and nothing is raised.
    - [length]: the string goes through [ToNumber].  A blank string is 0 and
      the length, already 0, is assigned again; a string without a digit that
      is not blank is [NaN] or an infinity, and the assignment raises a
      [RangeError]; for a string with a digit the outcome depends on the
      number the host reads: the model gives none.
    - any other name: the property is created, or replaced where it is. *)
Definition store_definition (n expression : string) : M unit :=
  if String.eqb n "__proto__" then ret tt
  else if String.eqb n "length" then
    if forallb is_js_space (chars expression) then ret tt
    else if existsb is_digit (chars expression) then unmodelled
    else throw (RangeError "Invalid array length")
  else modify (fun l => set_definitions (assoc_set n expression (definitions l)) l).

(** [Lexer.prototype.addDefinition] *)
Definition addDefinition (name : JSVal) (expression : Expression) : M unit :=
  match name with
  | VStr n =>
      if negb (idRegExp_test n)
      then throw (Error ("Invalid definition name " +:+ dquote +:+ n +:+ dquote))
      else
        match expression with
        | ExprString e =>
            if String.eqb e ""
            then throw (Error ("Empty expression for definition " +:+ dquote +:+ n +:+ dquote))
            else store_definition n (escapeRegExp e)
        | ExprRegExp re =>
            if String.eqb (re_source re) "(?:)"
            then throw (Error ("Empty expression for definition " +:+ dquote +:+ n +:+ dquote))
            else if negb (String.eqb (re_flags re) "")
            then throw (Error "Expression flags are not supported for definition expressions")
            else store_definition n (re_source re)
        | ExprOther _ =>
            throw (Error ("Invalid expression for definition " +:+ dquote +:+ n +:+ dquote))
        end
  | _ =>
      match js_to_string name with
      | Some t => throw (Error ("Invalid definition name " +:+ dquote +:+ t +:+ dquote))
      | None => unmodelled
      end
  end.

(** [Lexer.prototype.setSource] *)
Definition setSource (s : string) : M unit :=
  modify (set_source s);;;
  modify (set_index 0).

(** What the caller passes where a state specification is expected:
    nothing ([undefined] or [null]), one name, or an array of names. *)
Inductive StatesArg : Type :=
| StatesDefault
| StatesName (s : string)
| StatesList (ss : list string).

(** One rule of the array given to [addStateRules]. *)
Record RuleSpec : Type := mkRuleSpec {
  spec_expression : Expression;
  spec_action : option Act
}.

Definition has_flag (c : ascii) (flags : string) : bool :=
  existsb (Ascii.eqb c) (chars flags).

Section Scanner.

Context {engine : RegExpEngine}.

(** [Lexer.prototype.compileRuleExpression] *)
Definition compileRuleExpression (src flags : string) : M RegExp :=
  l <- get;;
  let src :=
    fold_left
      (fun s (d : string * string) =>
         regexp_replace_all ("{" +:+ fst d +:+ "}") "ig" s ("(?:" +:+ snd d +:+ ")"))
      (definitions l) src in
  let flags := if ignoreCase l && negb (has_flag "i" flags) then flags +:+ "i" else flags in
  ret (mkRegExp src (flags +:+ "ym")).

(** The names an absent or [*] specification stands for: the registered
    states, in the first case the inclusive ones only. *)
Definition registered_states (only_inclusive : bool) (l : Lexer) : list string :=
  map name
    (filter (fun st => negb only_inclusive || negb (exclusive st)) (map snd (map_to_list (states l)))).

(** [this.rules[state].push(rule)], creating the array when it is missing. *)
Definition push_rule (rule : Rule) (rs : gmap string (list Rule)) (st : string)
  : gmap string (list Rule) :=
  <[st := default [] (rs !! st) ++ [rule]]> rs.

(** The loop that ends [addStateRule]:
    [if (!this.rules[state]) { this.rules[state] = []; } this.rules[state].push(rule)]
    for each target state in turn.  Where [rules] has no key of its own for
    the state and inherits a member by that name, the member is truthy, no
    array is created and the member has no [push]: the call is a
    [TypeError], the states before this one having received the rule. *)
Fixpoint push_rules (rule : Rule) (sts : list string) : M unit :=
  match sts with
  | [] => ret tt
  | st :: rest =>
      l <- get;;
      if bool_decide (rules l !! st = None) && inherited st
      then throw (TypeError "this.rules[state].push is not a function")
      else
        modify (fun l => set_rules (push_rule rule (rules l) st) l);;;
        push_rules rule rest
  end.

(** [Lexer.prototype.addStateRule] *)
Definition addStateRule (sts : StatesArg) (expr : Expression) (act : option Act) : M unit :=
  l <- get;;
  (* the list of states comes out of [for (var index in this.states)] *)
  let enumerated :=
    match sts with
    | StatesDefault => true
    | StatesName s => String.eqb s STATE_ANY
    | StatesList _ => false
    end in
  let sts :=
    match sts with
    | StatesDefault => registered_states true l
    | StatesName s => if String.eqb s STATE_ANY then registered_states false l else [s]
    | StatesList ss => ss
    end in
  (* filter empty states *)
  let sts := filter (fun s => negb (String.eqb s "")) sts in
  if (length sts =? 0)%nat
  then throw (Error "Unable to add rule to empty list of states")
  else
    let notRegisteredStates := filter (unknown_state l) sts in
    if negb (length notRegisteredStates =? 0)%nat
    then throw (Error ("Unable to register rule within unregistered state(s): "
                       +:+ js_join ", " notRegisteredStates))
    else
      let finish (compiled : option RegExp) (fw : option Z) : M unit :=
        let rule :=
          mkRule compiled
                 (from_option isRegExpMatchBOL false compiled)
                 (from_option isRegExpMatchEOL false compiled)
                 (bool_decide (compiled = None))
                 act fw in
        (* [push] is going to throw on one of the states, and the states
           that receive the rule before it does are those the enumeration
           visited first: an order the model does not record *)
        if enumerated && existsb (fun st => bool_decide (rules l !! st = None) && inherited st) sts
        then unmodelled
        else push_rules rule sts in
      match expr with
      | ExprString e =>
          if String.eqb e RULE_EOF then finish None None
          else if String.eqb e ""
          then throw (Error ("Empty expression for rule used in states " +:+ dquote
                             +:+ js_join ", " sts +:+ dquote))
          else
            re <- compileRuleExpression (escapeRegExp e) "";;
            finish (Some re) (Some (js_length e))
      | ExprRegExp r =>
          if String.eqb (re_source r) "(?:)"
          then throw (Error ("Empty expression for rule used in states " +:+ dquote
                             +:+ js_join ", " sts +:+ dquote))
          else if negb (forallb (fun c => Ascii.eqb c "i" || Ascii.eqb c "u") (chars (re_flags r)))
          then throw (Error ("Expression flags besides " +:+ dquote +:+ "i" +:+ dquote +:+ " and "
                             +:+ dquote +:+ "u" +:+ dquote +:+ " are not supported"))
          else
            re <- compileRuleExpression (re_source r) (re_flags r);;
            finish (Some re) None
      | ExprOther v =>
          match js_to_string v with
          | Some t => throw (Error ("Invalid rule expression " +:+ dquote +:+ t +:+ dquote))
          | None => unmodelled
          end
      end.

(** [Lexer.prototype.addStateRules] *)
Fixpoint addStateRules (sts : StatesArg) (rs : list RuleSpec) : M unit :=
  match rs with
  | [] => ret tt
  | r :: rest =>
      addStateRule sts (spec_expression r) (spec_action r);;;
      addStateRules sts rest
  end.

(** [Lexer.prototype.addRule] *)
Definition addRule (expr : Expression) (act : option Act) : M unit :=
  addStateRule StatesDefault expr act.

(** [Lexer.prototype.addRules] *)
Definition addRules (rs : list RuleSpec) : M unit :=
  addStateRules StatesDefault rs.

(** ** Action API *)

(** [Lexer.prototype.discard] *)
Definition discard : M JSVal := ret VUndefined.

(** [Lexer.prototype.echo]: hands [this.text] to the output. *)
Definition echo : M JSVal :=
  modify (fun l => set_output (output l ++ [text l]) l);;;
  ret VUndefined.

Definition state_not_registered (newState : option string) : JSError :=
  Error ("State " +:+ dquote +:+ js_str newState +:+ dquote +:+ " is not registered").

(** [Lexer.prototype.begin] *)
Definition begin (newState : option string) : M unit :=
  let newState := match newState with None => STATE_INITIAL | Some s => s end in
  l <- get;;
  if unknown_state l newState
  then throw (state_not_registered (Some newState))
  else modify (set_state newState).

(** [this.text.length], a [TypeError] while [text] is [undefined]. *)
Definition text_length : M Z :=
  l <- get;;
  match text l with
  | Some t => ret (js_length t)
  | None => throw (TypeError "Cannot read properties of undefined (reading 'length')")
  end.

(** [Lexer.prototype.reject] *)
Definition reject : M unit :=
  n <- text_length;;
  modify (fun l => set_index (index l - n) l);;;
  modify (fun l => set_rejectedRules (rejectedRules l ++ [ruleIndex l]) l).

(** [Lexer.prototype.more] *)
Definition more : M unit := modify (set_readMore true).

(** [Lexer.prototype.less] *)
Definition less (n : Z) : M unit :=
  len <- text_length;;
  if len <? n then ret tt
  else
    modify (fun l => set_index (index l - (len - n)) l);;;
    modify (fun l => set_text (Some (js_substr (js_str (text l)) 0 (Some n))) l).

(** [Lexer.prototype.unput]: the [+] operator converts [s] to a string. *)
Definition unput (s : JSVal) : M unit :=
  match js_to_string s with
  | Some t =>
      modify (fun l =>
        set_source (js_substr (source l) 0 (Some (index l))
                    +:+ t
                    +:+ js_substr (source l) (index l) None) l)
  | None => unmodelled
  end.

(** [Lexer.prototype.input] *)
Definition input (n : option Z) : M string :=
  l <- get;;
  let value := js_substr (source l) (index l) (Some (match n with None => 1 | Some n => n end)) in
  modify (set_index (index l + js_length value));;;
  ret value.

(** [Lexer.prototype.terminate] *)
Definition terminate : M JSVal :=
  reset;;;
  ret EOF.

(** [Lexer.prototype.restart] *)
Definition restart (newSource : option string) : M unit :=
  match newSource with
  | Some s => modify (set_source s)
  | None => ret tt
  end;;;
  modify (set_index 0).

(** [Lexer.prototype.pushState] *)
Definition pushState (newState : option string) : M unit :=
  l <- get;;
  if unknown_state l (js_str newState)
  then throw (state_not_registered newState)
  else
    modify (fun l => set_stateStack (stateStack l ++ [state l]) l);;;
    begin newState.

(** [Lexer.prototype.topState] *)
Definition topState : M (option string) :=
  l <- get;;
  ret (last (stateStack l)).

(** [Lexer.prototype.popState] *)
Definition popState : M unit :=
  l <- get;;
  match last (stateStack l) with
  | None => throw (Error "Unable to pop state")
  | Some oldState =>
      modify (set_stateStack (removelast (stateStack l)));;;
      begin (Some oldState)
  end.

(** [Lexer.prototype.switchState] *)
Definition switchState (newState : option string) : M unit := begin newState.

Definition opt_str_val (o : option string) : JSVal :=
  match o with Some s => VStr s | None => VUndefined end.

(** The value a call hands back to the action that made it. *)
Definition run_call (c : Call) : M JSVal :=
  match c with
  | CDiscard => discard
  | CEcho => echo
  | CBegin s => begin s;;; ret VUndefined
  | CReject => reject;;; ret VUndefined
  | CMore => more;;; ret VUndefined
  | CLess n => less n;;; ret VUndefined
  | CUnput s => unput s;;; ret VUndefined
  | CInput n => v <- input n;; ret (VStr v)
  | CTerminate => terminate
  | CRestart s => restart s;;; ret VUndefined
  | CPushState s => pushState (Some s);;; ret VUndefined
  | CTopState => s <- topState;; ret (opt_str_val s)
  | CPopState => popState;;; ret VUndefined
  | CSwitchState s => switchState s;;; ret VUndefined
  | CGetText => l <- get;; ret (opt_str_val (text l))
  | CSetText s => modify (set_text (Some s));;; ret VUndefined
  | CGetState => l <- get;; ret (VStr (state l))
  | CGetIndex => l <- get;; ret (VNum (index l))
  | CGetSource => l <- get;; ret (VStr (source l))
  end.

(** [action(this)] *)
Fixpoint run_act (a : Act) : M JSVal :=
  match a with
  | Return v => ret v
  | Raise msg => throw (Error msg)
  | Do c k => v <- run_call c;; run_act (k v)
  end.

(** [matchedRule.action ? matchedRule.action(this) : this.discard()] *)
Definition run_rule_action (r : Rule) : M JSVal :=
  match action r with
  | Some a => run_act a
  | None => discard
  end.

(** ** The scan driver *)

(** [Lexer.prototype.encodeString] *)
Fixpoint encodeString (s : string) : string :=
  match s with
  | EmptyString => EmptyString
  | String c rest =>
      let n := nat_of_ascii c in
      (if (n =? 13)%nat then "\r"
       else if (n =? 10)%nat then "\n"
       else if (n =? 9)%nat then "\t"
       else if (n =? 12)%nat then "\f"
       else if (n =? 0)%nat then "\0"
       else String c "") +:+ encodeString rest
  end.

(** [Lexer.prototype.logAccept]; reading [expression.source] of an EOF rule,
    whose expression is [null], is a [TypeError]. *)
Definition logAccept (st : string) (expr : option RegExp) (value : string) : M unit :=
  match expr with
  | None => throw (TypeError "Cannot read properties of null (reading 'source')")
  | Some re =>
      modify (fun l => set_console
        (console l ++ [" - [" +:+ st +:+ "] accepting rule" +:+ " /"
                       +:+ encodeString (re_source re) +:+ "/" +:+ " ("
                       +:+ dquote +:+ encodeString value +:+ dquote +:+ ")"]) l)
  end.

(** [Lexer.prototype.execRegExp]; setting [lastIndex] on the [null]
    expression of an EOF rule is a [TypeError]. *)
Definition execRegExp (re : option RegExp) : M (option string) :=
  match re with
  | None => throw (TypeError "Cannot set properties of null (setting 'lastIndex')")
  | Some re => l <- get;; ret (regexp_exec re (source l) (index l))
  end.

(** The four locals of [scan] that the selection loop updates. *)
Record Selection : Type := mkSelection {
  matchedRule : option Rule;
  matchedIndex : option nat;
  matchedValue : string;
  matchedValueLength : Z   (* may exceed the length of matchedValue by the anchor bonuses *)
}.

Definition no_selection : Selection := mkSelection None None "" 0.

Definition is_rejected (i : nat) (l : Lexer) : bool :=
  bool_decide (Some i ∈ rejectedRules l).

(** What the loop adds to the length of a match for the anchors of its rule. *)
Definition anchor_bonus (rule : Rule) : Z :=
  (if hasBOL rule then 1 else 0) + (if hasEOL rule then 1 else 0).

(** The selection loop of [scan], [for (var index in rules) { ... }], from
    the rule at position [i] on. *)
Fixpoint select_from (at_eof : bool) (i : nat) (rs : list Rule) (sel : Selection)
  : M Selection :=
  match rs with
  | [] => ret sel
  | rule :: rest =>
      l <- get;;
      if is_rejected i l then select_from at_eof (S i) rest sel
      else if at_eof then
        (* skip non EOF rules *)
        if isEOF rule
        then ret (mkSelection (Some rule) (Some i) "" (matchedValueLength sel))
        else select_from at_eof (S i) rest sel
      else if match fixedWidth rule with
              | None => true
              | Some w => matchedValueLength sel <? w
              end
      then
        curMatch <- execRegExp (expression rule);;
        match curMatch with
        | Some m =>
            let curMatchLength := js_length m + anchor_bonus rule in
            if matchedValueLength sel <? curMatchLength
            then select_from at_eof (S i) rest (mkSelection (Some rule) (Some i) m curMatchLength)
            else select_from at_eof (S i) rest sel
        | None => select_from at_eof (S i) rest sel
        end
      else select_from at_eof (S i) rest sel
  end.

(** The rules of the active state: [this.rules[this.state] || []]. *)
Definition active_rules (l : Lexer) : list Rule := default [] (rules l !! state l).

Definition at_end (l : Lexer) : bool := js_length (source l) <=? index l.

(** The match selector: the selection loop run over the active state. *)
Definition select : M Selection :=
  l <- get;;
  select_from (at_end l) 0 (active_rules l) no_selection.

(** [Lexer.prototype.scan] *)
Definition scan : M JSVal :=
  l <- get;;
  let isEOF := at_end l in
  sel <- select;;
  match matchedRule sel with
  | Some r => if debugEnabled l then logAccept (state l) (expression r) (matchedValue sel)
              else ret tt
  | None => ret tt
  end;;;
  modify (set_ruleIndex (matchedIndex sel));;;
  modify (fun l => set_text (if readMore l then text l else Some "") l);;;
  modify (set_readMore false);;;
  match matchedRule sel with
  | None =>
      if negb isEOF then
        modify (fun l => set_text (Some (js_str (text l) +:+ js_charAt (source l) (index l))) l);;;
        modify (fun l => set_index (index l + 1) l);;;
        echo
      else
        modify (set_text (Some ""));;;
        terminate
  | Some r =>
      modify (fun l => set_text (Some (js_str (text l) +:+ matchedValue sel)) l);;;
      modify (fun l => set_index (index l + js_length (js_str (text l))) l);;;
      before <- get;;
      let rejectedBefore := length (rejectedRules before) in
      actionResult <- run_rule_action r;;
      after <- get;;
      let hasRejection := (rejectedBefore <? length (rejectedRules after))%nat in
      if hasRejection then
        (* ignore result if there is rejection in action *)
        ret VUndefined
      else
        modify (set_rejectedRules []);;;
        now <- get;;
        let isEOF := if isEOF then at_end now else false in
        if isEOF then terminate else ret actionResult
  end.

(** [Lexer.prototype.lex]: [do { result = this.scan(); } while (result === undefined)],
    with at most [fuel] passes. *)
Fixpoint lex (fuel : nat) : M JSVal :=
  match fuel with
  | O => fun _ => Timeout
  | S fuel =>
      result <- scan;;
      match result with
      | VUndefined => lex fuel
      | _ => ret result
      end
  end.

Definition is_EOF (v : JSVal) : bool :=
  match v with VNum 0 => true | _ => false end.

(** The loop of [lexAll], with at most [fuel] tokens and [fuel] passes for
    each of them. *)
Fixpoint lexAll_from (fuel : nat) (result : list JSVal) : M (list JSVal) :=
  match fuel with
  | O => fun _ => Timeout
  | S fuel' =>
      token <- lex fuel;;
      if is_EOF token then ret result
      else lexAll_from fuel' (result ++ [token])
  end.

(** [Lexer.prototype.lexAll] *)
Definition lexAll (fuel : nat) : M (list JSVal) := lexAll_from fuel [].

End Scanner.

(** ** A reference engine for a fragment of the pattern syntax

    [MiniEngine] interprets the sources made of plain characters, escaped
    syntax characters (all that [escapeRegExp] produces), the wildcard [.]
    and a postfix [*] or [+] on one of these, compiled with the sticky flag as
    [compileRuleExpression] does.  Any other source is outside the fragment
    and matches nothing. *)
Module MiniEngine.

Inductive atom : Type :=
| AChar (c : ascii)
| AAny.

Inductive item : Type :=
| IOne (a : atom)
| IStar (a : atom).

(** The items of a source, [None] outside the fragment. *)
Fixpoint parse (fuel : nat) (s : list ascii) : option (list item) :=
  match fuel with
  | O => None
  | S fuel =>
      match s with
      | [] => Some []
      | c :: rest =>
          let first :=
            if Ascii.eqb c "\" then
              match rest with
              | d :: rest' => if is_regexp_special d then Some (AChar d, rest') else None
              | [] => None
              end
            else if Ascii.eqb c "." then Some (AAny, rest)
            else if is_regexp_special c then None
            else Some (AChar c, rest) in
          match first with
          | None => None
          | Some (a, rest') =>
              match rest' with
              | d :: rest'' =>
                  if Ascii.eqb d "*" then cons (IStar a) <$> parse fuel rest''
                  else if Ascii.eqb d "+" then (fun k => IOne a :: IStar a :: k) <$> parse fuel rest''
                  else cons (IOne a) <$> parse fuel rest'
              | [] => Some [IOne a]
              end
          end
      end
  end.

Definition lower (c : ascii) : ascii :=
  let n := nat_of_ascii c in
  if ((65 <=? n) && (n <=? 90))%nat then ascii_of_nat (n + 32) else c.

Definition is_line_terminator (c : ascii) : bool :=
  let n := nat_of_ascii c in ((n =? 10) || (n =? 13))%nat.

Definition atom_ok (ci : bool) (a : atom) (c : ascii) : bool :=
  match a with
  | AChar d => if ci then Ascii.eqb (lower c) (lower d) else Ascii.eqb c d
  | AAny => negb (is_line_terminator c)
  end.

(** The number of characters the items consume at the head of the input:
    the first alternative of a backtracking matcher with greedy stars. *)
Fixpoint match_items (ci : bool) (its : list item) : list ascii -> option nat :=
  match its with
  | [] => fun _ => Some O
  | IOne a :: k =>
      fun inp =>
        match inp with
        | c :: inp' => if atom_ok ci a c then S <$> match_items ci k inp' else None
        | [] => None
        end
  | IStar a :: k =>
      fix star (inp : list ascii) : option nat :=
        match inp with
        | c :: inp' =>
            if atom_ok ci a c then
              match star inp' with
              | Some n => Some (S n)
              | None => match_items ci k inp
              end
            else match_items ci k inp
        | [] => match_items ci k []
        end
  end.

Definition supported_flags (flags : string) : bool :=
  has_flag "y" flags
  && forallb (fun c => existsb (Ascii.eqb c) (chars "iuym")) (chars flags).

Definition exec (re : RegExp) (input : string) (lastIndex : Z) : option string :=
  if negb (supported_flags (re_flags re)) then None
  else if js_length input <? lastIndex then None
  else
    let start := Z.to_nat (Z.max lastIndex 0) in
    match parse (S (String.length (re_source re))) (chars (re_source re)) with
    | None => None
    | Some its =>
        match match_items (has_flag "i" (re_flags re)) its (drop start (chars input)) with
        | Some n => Some (substring start n input)
        | None => None
        end
    end.

Definition prefix_ci (p s : list ascii) : bool :=
  (length p <=? length s)%nat
  && forallb (fun cd => Ascii.eqb (lower (fst cd)) (lower (snd cd))) (combine p s).

(** Every occurrence of the text [p], whatever its case, replaced by [repl]. *)
Fixpoint replace_ci (fuel : nat) (p repl s : list ascii) : list ascii :=
  match fuel with
  | O => s
  | S fuel =>
      match s with
      | [] => []
      | c :: rest =>
          if prefix_ci p s then repl ++ replace_ci fuel p repl (drop (length p) s)
          else c :: replace_ci fuel p repl rest
      end
  end.

(** [s.replace(new RegExp(pat, flags), repl)] for the patterns that
    [compileRuleExpression] builds from an identifier, [{name}] with the
    flags [ig], and a replacement free of [$]; the string is left as it is
    otherwise. *)
Definition replace_all (pat flags s repl : string) : string :=
  match chars pat with
  | c0 :: body =>
      match reverse body with
      | c1 :: rname =>
          if Ascii.eqb c0 "{" && Ascii.eqb c1 "}"
             && is_identifier (string_of_list_ascii (reverse rname))
             && String.eqb flags "ig"
             && negb (existsb (Ascii.eqb "$") (chars repl))
          then string_of_list_ascii
                 (replace_ci (S (String.length s)) (chars pat) (chars repl) (chars s))
          else s
      | [] => s
      end
  | [] => s
  end.

#[export] Instance engine : RegExpEngine := {|
  regexp_exec := exec;
  regexp_replace_all := replace_all
|}.

End MiniEngine.

(** ** Vocabulary of the statements *)

Section Vocabulary.

Context {engine : RegExpEngine}.

(** The length by which the loop ranks a match: the length of the matched
    text plus one for each anchor flag of the rule. *)
Definition effective_length (r : Rule) (m : string) : Z := js_length m + anchor_bonus r.

(** Rule [r], at position [j] of the list, is not rejected and its
    expression matches [m] at the cursor. *)
Definition candidate (l : Lexer) (rs : list Rule) (j : nat) (r : Rule) (m : string) : Prop :=
  rs !! j = Some r
  /\ is_rejected j l = false
  /\ exists re, expression r = Some re /\ regexp_exec re (source l) (index l) = Some m.

(** The fixed-width shortcut loses nothing: a rule that carries a width
    never ranks above it. *)
Definition widths_bound_ranks (l : Lexer) (rs : list Rule) : Prop :=
  forall j r m w,
    candidate l rs j r m -> fixedWidth r = Some w -> effective_length r m <= w.

(** What the loop knows after the rules before position [i]. *)
Record loop_inv (l : Lexer) (rs : list Rule) (i : nat) (sel : Selection) : Prop := {
  inv_index : forall k, matchedIndex sel = Some k -> (k < i)%nat;
  inv_chosen :
    match matchedRule sel with
    | Some r => exists k, matchedIndex sel = Some k
                          /\ candidate l rs k r (matchedValue sel)
                          /\ matchedValueLength sel = effective_length r (matchedValue sel)
                          /\ 0 < matchedValueLength sel
    | None => sel = no_selection
    end;
  inv_best : forall j r m,
    (j < i)%nat -> candidate l rs j r m ->
    effective_length r m <= matchedValueLength sel
    /\ (effective_length r m = matchedValueLength sel ->
        forall k, matchedIndex sel = Some k -> (k <= j)%nat)
}.

(** The invariant of the loop on the rule it has chosen so far. *)
Definition chosen_inv (sel : Selection) : Prop :=
  match matchedRule sel with
  | Some r => matchedValueLength sel = effective_length r (matchedValue sel)
              /\ 0 < matchedValueLength sel
  | None => sel = no_selection
  end.

(** The action makes no call to [reject()], whatever the calls it makes
    return. *)
Fixpoint no_reject (a : Act) : Prop :=
  match a with
  | Return _ | Raise _ => True
  | Do c k => c <> CReject /\ forall v, no_reject (k v)
  end.

Definition rule_no_reject (r : Rule) : Prop :=
  match action r with
  | Some a => no_reject a
  | None => True
  end.

(** The token text a pass starts from: the text carried over by [more()],
    or the empty string. *)
Definition carried_text (l : Lexer) : string :=
  js_str (if readMore l then text l else Some "").

(** The scanner as [scan] hands it to the action of the selected rule. *)
Definition before_action (sel : Selection) (l : Lexer) : Lexer :=
  let t := carried_text l +:+ matchedValue sel in
  set_index (index l + js_length t)
    (set_text (Some t) (set_readMore false (set_ruleIndex (matchedIndex sel) l))).

(** The scanner after a pass in which no rule matched before the end of the
    input: the default rule has consumed one character and echoed it. *)
Definition default_echo (l : Lexer) : Lexer :=
  let t := carried_text l +:+ js_charAt (source l) (index l) in
  set_output (output l ++ [Some t])
    (set_index (index l + 1)
       (set_text (Some t) (set_readMore false (set_ruleIndex None l)))).

(** The runtime part of a scanner is the one [reset()] installs. *)
Definition is_reset (l : Lexer) : Prop :=
  source l = "" /\ index l = 0 /\ text l = None /\ state l = STATE_INITIAL
  /\ ruleIndex l = None /\ readMore l = false /\ stateStack l = []
  /\ rejectedRules l = [].

(** Two scanners have the same configuration. *)
Definition same_config (l l' : Lexer) : Prop :=
  states l' = states l /\ definitions l' = definitions l /\ rules l' = rules l
  /\ ignoreCase l' = ignoreCase l /\ debugEnabled l' = debugEnabled l.

(** The cursor lies within the source. *)
Definition cursor_ok (l : Lexer) : Prop := 0 <= index l <= js_length (source l).


(** A rule that carries a fixed width matches texts of that width only and
    has no anchor flag: the case of a literal that does not end in a
    dollar. *)
Definition literal_widths_exact (l : Lexer) (rs : list Rule) : Prop :=
  forall j r m w,
    candidate l rs j r m -> fixedWidth r = Some w ->
    js_length m = w /\ hasBOL r = false /\ hasEOL r = false.



(** [this.definitions[name]] *)
Fixpoint assoc_get (k : string) (d : list (string * string)) : option string :=
  match d with
  | [] => None
  | (k', v) :: rest => if String.eqb k k' then Some v else assoc_get k rest
  end.

(** The last character of a string is a dollar. *)
Definition ends_with_dollar (s : string) : Prop := last (chars s) = Some "$"%char.


(** The states a state specification stands for when a rule is added: the
    names it resolves to, the empty ones left out. *)
Definition target_states (sts : StatesArg) (l : Lexer) : list string :=
  filter (fun s => negb (String.eqb s ""))
    match sts with
    | StatesDefault => registered_states true l
    | StatesName s => if String.eqb s STATE_ANY then registered_states false l else [s]
    | StatesList ss => ss
    end.

(** The calls that leave the cursor, the source, the token text, the active
    state, the index of the rule and the rejected set as they are, and raise
    nothing. *)
Definition quiet (c : Call) : bool :=
  match c with
  | CDiscard | CEcho | CMore | CTopState | CGetText | CGetState | CGetIndex | CGetSource => true
  | _ => false
  end.

(** The action makes quiet calls only and returns, whatever the calls
    return. *)
Fixpoint quiet_act (a : Act) : Prop :=
  match a with
  | Return _ => True
  | Raise _ => False
  | Do c k => quiet c = true /\ forall v, quiet_act (k v)
  end.

(** The action calls [reject()] once, makes quiet calls only before and
    after it, and returns, whatever the calls return: [reject()] alone, or
    the [echo(); reject()] of the test suite. *)
Fixpoint rejects_once (a : Act) : Prop :=
  match a with
  | Return _ | Raise _ => False
  | Do c k => (c = CReject /\ forall v, quiet_act (k v))
              \/ (quiet c = true /\ forall v, rejects_once (k v))
  end.

(** The parts of the scanner a quiet call leaves alone. *)
Definition same_token (l l' : Lexer) : Prop :=
  index l' = index l /\ source l' = source l /\ state l' = state l
  /\ text l' = text l /\ ruleIndex l' = ruleIndex l
  /\ rejectedRules l' = rejectedRules l.

(** A rule with an expression, not an EOF rule, whose action is
    [reject()] and a return. *)
Definition rejecting_rule (r : Rule) : Prop :=
  expression r <> None /\ isEOF r = false
  /\ exists v, action r = Some (Do CReject (fun _ => Return v)).

(** The number of rules of the active state that are not rejected. *)
Definition unrejected (l : Lexer) : nat :=
  length (filter (fun i => Some i ∉ rejectedRules l) (seq 0 (length (active_rules l)))).





(** The one-character strings of a string, in order. *)
Definition single_chars (s : string) : list (option string) :=
  map (fun c => Some (String c "")) (chars s).

End Vocabulary.

(** ** Configurations used in the examples

    Each is built through the public API on a fresh scanner, with
    [MiniEngine] as the host engine. *)
Module Examples.
Import MiniEngine.

Definition act_echo : Act := Do CEcho (fun _ => Return VUndefined).
Definition act_reject : Act := Do CReject (fun _ => Return VUndefined).
Definition act_echo_reject : Act := Do CEcho (fun _ => Do CReject (fun _ => Return VUndefined)).
Definition act_echo_more : Act := Do CEcho (fun _ => Do CMore (fun _ => Return VUndefined)).
Definition act_unput (s : string) : Act := Do (CUnput (VStr s)) (fun _ => Return VUndefined).

(** [addRule('zap me'); setSource('bla zap me bla zap me bla')] *)
Definition zap_me : Lexer :=
  run_on (addRule (ExprString "zap me") None;;;
          setSource "bla zap me bla zap me bla") newLexer.

(** The rules ['a'], ['ab'], ['abc'], ['abcd'] with the action
    [echo(); reject()], then [/./]; the source is ['abcd']. *)
Definition multiple_rejects : Lexer :=
  run_on (addRule (ExprString "a") (Some act_echo_reject);;;
          addRule (ExprString "ab") (Some act_echo_reject);;;
          addRule (ExprString "abc") (Some act_echo_reject);;;
          addRule (ExprString "abcd") (Some act_echo_reject);;;
          addRule (ExprRegExp (mkRegExp "." "")) None;;;
          setSource "abcd") newLexer.

(** [addRule('mega-', echo(); more()); addRule('kludge', echo());
    setSource('mega-kludge')] *)
Definition mega_kludge : Lexer :=
  run_on (addRule (ExprString "mega-") (Some act_echo_more);;;
          addRule (ExprString "kludge") (Some act_echo);;;
          setSource "mega-kludge") newLexer.

(** [addRule('foobar', unput('(foobar)')); addRule(/.+/, echo());
    setSource('foobar')] *)
Definition unput_foobar : Lexer :=
  run_on (addRule (ExprString "foobar") (Some (act_unput "(foobar)"));;;
          addRule (ExprRegExp (mkRegExp ".+" "")) (Some act_echo);;;
          setSource "foobar") newLexer.

(** [addRule('$'); addRule('$$'); setSource('$$')] *)
Definition dollars : Lexer :=
  run_on (addRule (ExprString "$") None;;;
          addRule (ExprString "$$") None;;;
          setSource "$$") newLexer.

(** [addRule('a', reject()); setSource('aa')] *)
Definition reject_only : Lexer :=
  run_on (addRule (ExprString "a") (Some act_reject);;;
          setSource "aa") newLexer.

(** [addRule(/a*/, echo()); setSource('b')] *)
Definition star_rule : Lexer :=
  run_on (addRule (ExprRegExp (mkRegExp "a*" "")) (Some act_echo);;;
          setSource "b") newLexer.

(** [addRule('<<EOF>>', unput('x')); setSource('')]: an EOF rule whose
    action refills the input and returns a token. *)
Definition eof_refill : Lexer :=
  run_on (addRule (ExprString RULE_EOF)
                  (Some (Do (CUnput (VStr "x")) (fun _ => Return (VStr "refilled"))));;;
          setSource "") newLexer.

(** The rule, the selection and the scanner after the action in the first
    pass over [eof_refill]. *)
Definition eof_rule : Rule :=
  mkRule None false false true
         (Some (Do (CUnput (VStr "x")) (fun _ => Return (VStr "refilled")))) None.
Definition eof_selection : Selection := mkSelection (Some eof_rule) (Some 0%nat) "" 0.
Definition eof_refilled : Lexer :=
  run_on (run_rule_action eof_rule) (before_action eof_selection eof_refill).

(** [setSource('ab'); input()]: a scanner whose cursor stands at 1. *)
Definition cursor_at_one : Lexer :=
  run_on (setSource "ab";;; input None) newLexer.

(** [setSource('bla bla bla')] on a fresh scanner. *)
Definition bla_bla_bla : string := "bla bla bla".

(** What the selector returns on a scanner, and the rule it holds. *)
Definition selected (l : Lexer) : Selection :=
  match select l with
  | Ok sel _ => sel
  | _ => no_selection
  end.
Definition selected_rule (l : Lexer) : Rule :=
  match matchedRule (selected l) with
  | Some r => r
  | None => mkRule None false false false None None
  end.

(** [multiple_rejects] after its first pass: ['abcd'] is rejected. *)
Definition abcd_rejected : Lexer := run_on scan multiple_rejects.

(** [zap_me] once [input(100)] has read the whole source. *)
Definition zap_me_at_end : Lexer := run_on (input (Some 100)) zap_me.

(** [addRule('mega-', echo(); more()); addRule('kludge');
    setSource('mega-kludge')] after its first pass. *)
Definition mega_carried : Lexer :=
  run_on (addRule (ExprString "mega-") (Some act_echo_more);;;
          addRule (ExprString "kludge") None;;;
          setSource "mega-kludge";;;
          scan) newLexer.

(** [unput_foobar] after the action of its first pass. *)
Definition foobar_unput : Lexer :=
  run_on (run_rule_action (selected_rule unput_foobar))
         (before_action (selected unput_foobar) unput_foobar).

(** [addState('comment', true)] on a fresh scanner. *)
Definition with_comment : Lexer := run_on (addState "comment" true) newLexer.

(** [addRule('foobar'); setSource('foobar')] after its first pass: the token
    text is ['foobar']. *)
Definition foobar_matched : Lexer :=
  run_on (addRule (ExprString "foobar") None;;;
          setSource "foobar";;;
          scan) newLexer.


(** The outcome of [addStateRule('nope', 'x')] on a fresh scanner: the
    message of the error and the scanner it leaves. *)
Definition refusal : string :=
  match addStateRule (StatesName "nope") (ExprString "x") None newLexer with
  | Throw (Error msg) _ => msg
  | _ => ""
  end.
Definition refused : Lexer :=
  run_on (addStateRule (StatesName "nope") (ExprString "x") None) newLexer.


(** [setDebugEnabled(true); addRule('<<EOF>>'); setSource('')]: an EOF rule
    with the default action on a scanner that traces. *)
Definition eof_traced : Lexer :=
  run_on (setDebugEnabled true;;;
          addRule (ExprString RULE_EOF) None;;;
          setSource "") newLexer.

(** The EOF rule without action and what the selector returns for it. *)
Definition plain_eof_rule : Rule := mkRule None false false true None None.
Definition plain_eof_selection : Selection :=
  mkSelection (Some plain_eof_rule) (Some 0%nat) "" 0.

(** [addState('comment', true); addRule('a', more(); begin('comment'));
    setSource('ab')] after its first pass: the active state has no rule and
    [more()] is pending with the text ['a']. *)
Definition pending_in_comment : Lexer :=
  run_on (addRule (ExprString "a")
                  (Some (Do CMore (fun _ => Do (CBegin (Some "comment"))
                                              (fun _ => Return VUndefined))));;;
          setSource "ab";;;
          scan) with_comment.

(** [addRule(/a+/, return 'A'); addRule(/b+/, return 'B'); setSource('aabba')] *)
Definition words : Lexer :=
  run_on (addRule (ExprRegExp (mkRegExp "a+" "")) (Some (Return (VStr "A")));;;
          addRule (ExprRegExp (mkRegExp "b+" "")) (Some (Return (VStr "B")));;;
          setSource "aabba") newLexer.

End Examples.

(** * Properties *)

(** ** The selection loop *)

Section Selection.

Context {engine : RegExpEngine}.

Lemma select_from_cons (e : bool) (i : nat) (rule : Rule) (rest : list Rule)
      (sel : Selection) (l : Lexer) :
  select_from e i (rule :: rest) sel l =
  if is_rejected i l then select_from e (S i) rest sel l
  else if e then
    if isEOF rule
    then Ok (mkSelection (Some rule) (Some i) "" (matchedValueLength sel)) l
    else select_from e (S i) rest sel l
  else if match fixedWidth rule with
          | None => true
          | Some w => matchedValueLength sel <? w
          end
  then match expression rule with
       | None => Throw (TypeError "Cannot set properties of null (setting 'lastIndex')") l
       | Some re =>
           match regexp_exec re (source l) (index l) with
           | Some m =>
               if matchedValueLength sel <? effective_length rule m
               then select_from e (S i) rest
                      (mkSelection (Some rule) (Some i) m (effective_length rule m)) l
               else select_from e (S i) rest sel l
           | None => select_from e (S i) rest sel l
           end
       end
  else select_from e (S i) rest sel l.
Proof.
  cbn [select_from]. unfold bind at 1, get at 1.
  destruct (is_rejected i l); [reflexivity|].
  destruct e; [destruct (isEOF rule); reflexivity|].
  destruct (match fixedWidth rule with None => _ | Some w => _ end); [|reflexivity].
  unfold bind, execRegExp. destruct (expression rule) as [re|]; [|reflexivity].
  unfold bind, get, ret, effective_length.
  destruct (regexp_exec re (source l) (index l)) as [m|]; [|reflexivity].
  destruct (matchedValueLength sel <? js_length m + anchor_bonus rule); reflexivity.
Qed.

(** The loop reads the scanner and leaves it as it is. *)
Lemma select_from_frame (e : bool) (rs : list Rule) :
  forall i sel l sel' l', select_from e i rs sel l = Ok sel' l' -> l' = l.
Proof.
  induction rs as [|rule rest IH]; intros i sel l sel' l' Hrun.
  - cbn in Hrun. unfold ret in Hrun. congruence.
  - rewrite select_from_cons in Hrun.
    repeat match type of Hrun with
           | context [if ?b then _ else _] => destruct b
           | context [match ?o with Some _ => _ | None => _ end] => destruct o
           end; try congruence; eauto.
Qed.

Lemma select_frame (l : Lexer) (sel : Selection) (l' : Lexer) :
  select l = Ok sel l' -> l' = l.
Proof. unfold select, bind, get. apply select_from_frame. Qed.

Lemma effective_length_nonneg (r : Rule) (m : string) : 0 <= effective_length r m.
Proof.
  unfold effective_length, anchor_bonus, js_length.
  destruct (hasBOL r), (hasEOL r); lia.
Qed.

Lemma candidate_functional l rs j r1 m1 r2 m2 :
  candidate l rs j r1 m1 -> candidate l rs j r2 m2 -> r1 = r2 /\ m1 = m2.
Proof.
  intros (H1 & _ & re1 & He1 & Hm1) (H2 & _ & re2 & He2 & Hm2).
  assert (r1 = r2) by congruence. subst r2. split; [reflexivity|]. congruence.
Qed.

Lemma loop_inv_init l rs : loop_inv l rs 0 no_selection.
Proof.
  split; cbn.
  - intros k Hk. discriminate.
  - reflexivity.
  - intros j r m Hj. lia.
Qed.

Lemma loop_inv_skip l rs i sel :
  loop_inv l rs i sel ->
  (forall r m, candidate l rs i r m ->
     effective_length r m <= matchedValueLength sel) ->
  loop_inv l rs (S i) sel.
Proof.
  intros [Hidx Hch Hbest] Hskip. split.
  - intros k Hk. specialize (Hidx k Hk). lia.
  - exact Hch.
  - intros j r m Hj Hc.
    destruct (decide (j = i)) as [->|Hne].
    + split; [eauto|]. intros _ k Hk. specialize (Hidx k Hk). lia.
    + apply Hbest; [lia|exact Hc].
Qed.

Lemma loop_inv_take l rs i sel rule re m :
  loop_inv l rs i sel ->
  rs !! i = Some rule -> is_rejected i l = false ->
  expression rule = Some re -> regexp_exec re (source l) (index l) = Some m ->
  matchedValueLength sel < effective_length rule m ->
  loop_inv l rs (S i) (mkSelection (Some rule) (Some i) m (effective_length rule m)).
Proof.
  intros [Hidx Hch Hbest] Hlk Hrej Hre Hm Hlt.
  assert (Hcand : candidate l rs i rule m) by (split; [|split]; eauto).
  assert (0 <= matchedValueLength sel).
  { destruct (matchedRule sel); [destruct Hch as (k & _ & _ & _ & ?); lia|].
    subst sel. cbn. lia. }
  split; cbn.
  - intros k [= <-]. lia.
  - exists i. repeat split; try assumption; eauto. lia.
  - intros j r m' Hj Hc.
    destruct (decide (j = i)) as [->|Hne].
    + destruct (candidate_functional _ _ _ _ _ _ _ Hc Hcand) as [-> ->].
      split; [lia|]. intros _ k [= <-]. lia.
    + destruct (Hbest j r m' ltac:(lia) Hc) as [Hle _].
      split; [lia|]. intros Heq. lia.
Qed.

(** The invariant is kept by the loop at a cursor that is not at the end of
    the input, as long as the shortcut is sound for the rules in the list. *)
Lemma select_from_inv (l : Lexer) (rs0 : list Rule) :
  widths_bound_ranks l rs0 ->
  forall rs i sel sel' l',
    (i <= length rs0)%nat ->
    drop i rs0 = rs ->
    loop_inv l rs0 i sel ->
    select_from false i rs sel l = Ok sel' l' ->
    loop_inv l rs0 (length rs0) sel'.
Proof.
  intros Hfw rs. induction rs as [|rule rest IH]; intros i sel sel' l' Hi Hdrop Hinv Hrun.
  - cbn in Hrun. unfold ret in Hrun. injection Hrun as <- _.
    destruct Hinv as [Hidx Hch Hbest]. split; [| exact Hch |].
    + intros k Hk. specialize (Hidx k Hk). lia.
    + intros j r m Hj Hc. apply Hbest; [|exact Hc].
      destruct (decide (j < i)%nat) as [|Hge]; [assumption|].
      assert (length (drop i rs0) = 0%nat) as Hlen by (rewrite Hdrop; reflexivity).
      rewrite length_drop in Hlen. lia.
  - assert (Hlk : rs0 !! i = Some rule).
    { rewrite <- (Nat.add_0_r i), <- lookup_drop, Hdrop. reflexivity. }
    assert (Hdrop' : drop (S i) rs0 = rest).
    { rewrite (drop_S _ _ _ Hlk) in Hdrop. congruence. }
    assert (Hi' : (S i <= length rs0)%nat).
    { apply lookup_lt_Some in Hlk. lia. }
    rewrite select_from_cons in Hrun.
    destruct (is_rejected i l) eqn:Hrej.
    { eapply IH; [exact Hi'|exact Hdrop'| |exact Hrun].
      apply loop_inv_skip; [exact Hinv|].
      intros r m (_ & Hnr & _). congruence. }
    destruct (match fixedWidth rule with None => _ | Some w => _ end) eqn:Hw.
    + destruct (expression rule) as [re|] eqn:Hre; [|discriminate].
      destruct (regexp_exec re (source l) (index l)) as [m|] eqn:Hm.
      * destruct (matchedValueLength sel <? effective_length rule m) eqn:Hlt.
        -- eapply IH; [exact Hi'|exact Hdrop'| |exact Hrun].
           apply Z.ltb_lt in Hlt. eapply loop_inv_take; eauto.
        -- eapply IH; [exact Hi'|exact Hdrop'| |exact Hrun].
           apply Z.ltb_ge in Hlt.
           apply loop_inv_skip; [exact Hinv|].
           intros r m' Hc.
           assert (Hcand : candidate l rs0 i rule m) by (split; [|split]; eauto).
           destruct (candidate_functional _ _ _ _ _ _ _ Hc Hcand) as [-> ->]. exact Hlt.
      * eapply IH; [exact Hi'|exact Hdrop'| |exact Hrun].
        apply loop_inv_skip; [exact Hinv|].
        intros r m' (Hlk' & _ & re' & Hre' & Hm').
        assert (r = rule) by congruence. subst r. congruence.
    + eapply IH; [exact Hi'|exact Hdrop'| |exact Hrun].
      apply loop_inv_skip; [exact Hinv|].
      intros r m Hc.
      destruct (fixedWidth rule) as [w|] eqn:Hfix; [|discriminate].
      apply Z.ltb_ge in Hw.
      assert (r = rule) by (destruct Hc as (Hlk' & _); congruence). subst r.
      specialize (Hfw i rule m w Hc Hfix). lia.
Qed.

(** Longest match, first rule on ties, where the fixed-width shortcut is
    sound: the rule the selector returns at a cursor before the end of the
    input matches there, no candidate ranks above it, and a candidate of the
    same rank stands later in the list. *)
Lemma select_longest_first (l : Lexer) (sel : Selection) (l' : Lexer) (r : Rule) :
  at_end l = false ->
  widths_bound_ranks l (active_rules l) ->
  select l = Ok sel l' ->
  matchedRule sel = Some r ->
  exists i,
    matchedIndex sel = Some i
    /\ candidate l (active_rules l) i r (matchedValue sel)
    /\ forall j r' m',
         candidate l (active_rules l) j r' m' ->
         effective_length r' m' <= effective_length r (matchedValue sel)
         /\ (effective_length r' m' = effective_length r (matchedValue sel) -> (i <= j)%nat).
Proof.
  intros Hend Hfw Hsel Hr.
  unfold select, bind, get in Hsel. rewrite Hend in Hsel.
  pose proof (select_from_inv l (active_rules l) Hfw _ 0%nat _ _ _
                (Nat.le_0_l _) eq_refl (loop_inv_init _ _) Hsel) as [Hidx Hch Hbest].
  rewrite Hr in Hch. destruct Hch as (i & Hi & Hcand & Hlen & _).
  exists i. split; [exact Hi|]. split; [exact Hcand|].
  intros j r' m' Hc.
  assert (Hj : (j < length (active_rules l))%nat).
  { destruct Hc as (Hlk & _). eapply lookup_lt_Some; eauto. }
  destruct (Hbest j r' m' Hj Hc) as [Hle Htie]. rewrite <- Hlen.
  split; [exact Hle|]. intros Heq. exact (Htie Heq i Hi).
Qed.

(** A rule is taken only for a rank above the best so far, which starts at
    0: whatever the rules, the rule chosen has a positive rank. *)
Lemma select_from_chosen (rs : list Rule) :
  forall i sel l sel' l',
    chosen_inv sel ->
    select_from false i rs sel l = Ok sel' l' ->
    chosen_inv sel'.
Proof.
  induction rs as [|rule rest IH]; intros i sel l sel' l' Hinv Hrun.
  - cbn in Hrun. unfold ret in Hrun. congruence.
  - rewrite select_from_cons in Hrun.
    destruct (is_rejected i l); [eauto|].
    destruct (match fixedWidth rule with None => _ | Some w => _ end); [|eauto].
    destruct (expression rule) as [re|]; [|discriminate].
    destruct (regexp_exec re (source l) (index l)) as [m|]; [|eauto].
    destruct (matchedValueLength sel <? effective_length rule m) eqn:Hlt; [|eauto].
    eapply IH; [|exact Hrun].
    apply Z.ltb_lt in Hlt. unfold chosen_inv. cbn. split; [reflexivity|].
    unfold chosen_inv in Hinv. destruct (matchedRule sel); [lia|].
    subst sel. cbn in Hlt. exact Hlt.
Qed.

Lemma select_positive (l : Lexer) (sel : Selection) (l' : Lexer) (r : Rule) :
  at_end l = false ->
  select l = Ok sel l' ->
  matchedRule sel = Some r ->
  0 < effective_length r (matchedValue sel).
Proof.
  intros Hend Hsel Hr.
  unfold select, bind, get in Hsel. rewrite Hend in Hsel.
  assert (Hinit : chosen_inv no_selection) by reflexivity.
  pose proof (select_from_chosen _ _ _ _ _ _ Hinit Hsel) as Hch.
  unfold chosen_inv in Hch. rewrite Hr in Hch. lia.
Qed.

(** When no candidate has a positive rank and every rule the loop reaches
    has an expression, the loop ends as it started: nothing is selected. *)
Lemma select_from_nothing (l : Lexer) (rs0 : list Rule) :
  (forall j r m, candidate l rs0 j r m -> effective_length r m <= 0) ->
  (forall j r, rs0 !! j = Some r -> is_rejected j l = false -> expression r <> None) ->
  forall rs i,
    drop i rs0 = rs ->
    select_from false i rs no_selection l = Ok no_selection l.
Proof.
  intros Hzero Hexpr rs. induction rs as [|rule rest IH]; intros i Hdrop.
  - reflexivity.
  - assert (Hlk : rs0 !! i = Some rule).
    { rewrite <- (Nat.add_0_r i), <- lookup_drop, Hdrop. reflexivity. }
    assert (Hdrop' : drop (S i) rs0 = rest).
    { rewrite (drop_S _ _ _ Hlk) in Hdrop. congruence. }
    rewrite select_from_cons.
    destruct (is_rejected i l) eqn:Hrej; [eauto|].
    destruct (match fixedWidth rule with None => _ | Some w => _ end); [|eauto].
    destruct (expression rule) as [re|] eqn:Hre.
    2:{ exfalso. eapply Hexpr; eauto. }
    destruct (regexp_exec re (source l) (index l)) as [m|] eqn:Hm; [|eauto].
    assert (Hc : candidate l rs0 i rule m) by (split; [|split]; eauto).
    specialize (Hzero _ _ _ Hc).
    replace (matchedValueLength no_selection <? effective_length rule m) with false.
    + eauto.
    + symmetry. apply Z.ltb_ge. cbn. lia.
Qed.

(** At the end of the input the loop returns the first EOF rule that is not
    rejected, with an empty match, and consults no expression. *)
Lemma select_from_at_end (rs : list Rule) :
  forall i sel l sel' l' r,
    select_from true i rs sel l = Ok sel' l' ->
    matchedRule sel = None ->
    matchedRule sel' = Some r ->
    isEOF r = true /\ matchedValue sel' = "".
Proof.
  induction rs as [|rule rest IH]; intros i sel l sel' l' r Hrun Hnone Hr.
  - cbn in Hrun. unfold ret in Hrun. congruence.
  - rewrite select_from_cons in Hrun.
    destruct (is_rejected i l); [eauto|].
    destruct (isEOF rule) eqn:Heof; [|eauto].
    injection Hrun as <- _. cbn in Hr. injection Hr as <-. split; [exact Heof|reflexivity].
Qed.

Lemma select_at_end (l : Lexer) (sel : Selection) (l' : Lexer) (r : Rule) :
  at_end l = true ->
  select l = Ok sel l' ->
  matchedRule sel = Some r ->
  isEOF r = true /\ matchedValue sel = "".
Proof.
  intros Hend Hsel Hr. unfold select, bind, get in Hsel. rewrite Hend in Hsel.
  eapply select_from_at_end; eauto.
Qed.

End Selection.

(** ** The scan driver *)

Section Driver.

Context {engine : RegExpEngine}.

Lemma reset_is_reset (l : Lexer) : is_reset (run_on reset l).
Proof. repeat split. Qed.

Lemma terminate_eq (l : Lexer) : terminate l = Ok EOF (run_on reset l).
Proof. reflexivity. Qed.

(** A pass before the end of the input in which the selector returns no
    rule: the default rule. *)
Lemma scan_default_echo (l : Lexer) :
  at_end l = false ->
  select l = Ok no_selection l ->
  scan l = Ok VUndefined (default_echo l).
Proof.
  intros Hend Hsel. unfold scan, bind at 1, get at 1. unfold bind at 1.
  rewrite Hsel. cbn. rewrite Hend. reflexivity.
Qed.

(** A pass at the end of the input in which the selector returns no rule. *)
Lemma scan_end_of_input (l : Lexer) :
  at_end l = true ->
  select l = Ok no_selection l ->
  scan l = Ok EOF (run_on reset l).
Proof.
  intros Hend Hsel. unfold scan, bind at 1, get at 1. unfold bind at 1.
  rewrite Hsel. cbn. rewrite Hend. reflexivity.
Qed.

(** A pass in which a rule is selected, debug tracing is off and the action
    returns. *)
Lemma scan_selected (l : Lexer) (sel : Selection) (r : Rule) (v : JSVal) (l2 : Lexer) :
  select l = Ok sel l ->
  matchedRule sel = Some r ->
  debugEnabled l = false ->
  run_rule_action r (before_action sel l) = Ok v l2 ->
  scan l =
  if (length (rejectedRules l) <? length (rejectedRules l2))%nat
  then Ok VUndefined l2
  else if at_end l && at_end l2
       then Ok EOF (run_on reset l2)
       else Ok v (set_rejectedRules [] l2).
Proof.
  intros Hsel Hr Hdbg Hact. unfold scan, bind at 1, get at 1. unfold bind at 1.
  rewrite Hsel. unfold bind at 1. rewrite Hr, Hdbg.
  unfold ret at 1. unfold bind at 1, modify at 1. unfold bind at 1, modify at 1.
  unfold bind at 1, modify at 1. unfold bind at 1. unfold bind at 1, modify at 1.
  unfold bind at 1, modify at 1. unfold bind at 1, get at 1. unfold bind at 1.
  change (run_rule_action r _) with (run_rule_action r (before_action sel l)).
  rewrite Hact. unfold bind, get, modify, ret.
  cbn [rejectedRules set_index set_text set_readMore set_ruleIndex].
  destruct (length (rejectedRules l) <? length (rejectedRules l2))%nat; [reflexivity|].
  change (at_end (set_rejectedRules [] l2)) with (at_end l2).
  destruct (at_end l), (at_end l2); reflexivity.
Qed.

(** With debug tracing on, [logAccept] reads the source of the expression of
    the selected rule; for an EOF rule there is none and the pass throws
    before the action runs. *)
Lemma scan_eof_rule_traced_throws (l : Lexer) (sel : Selection) (r : Rule) :
  select l = Ok sel l ->
  matchedRule sel = Some r ->
  expression r = None ->
  debugEnabled l = true ->
  exists e, scan l = Throw e l.
Proof.
  intros Hsel Hr Hexpr Hdbg. unfold scan, bind at 1, get at 1. unfold bind at 1.
  rewrite Hsel. unfold bind at 1. rewrite Hr, Hdbg, Hexpr. eexists. reflexivity.
Qed.

(** A pass that selects a rule whose action records no rejection ends with
    an empty rejected set. *)
Lemma scan_selected_clears_rejected
      (l : Lexer) (sel : Selection) (r : Rule) (v : JSVal) (l2 : Lexer) :
  select l = Ok sel l ->
  matchedRule sel = Some r ->
  debugEnabled l = false ->
  run_rule_action r (before_action sel l) = Ok v l2 ->
  (length (rejectedRules l2) <= length (rejectedRules l))%nat ->
  exists v' l3, scan l = Ok v' l3 /\ rejectedRules l3 = [].
Proof.
  intros Hsel Hr Hdbg Hact Hlen.
  rewrite (scan_selected _ _ _ _ _ Hsel Hr Hdbg Hact).
  replace (length (rejectedRules l) <? length (rejectedRules l2))%nat with false
    by (symmetry; apply Nat.ltb_ge; exact Hlen).
  destruct (at_end l && at_end l2); eexists _, _; split; reflexivity.
Qed.

End Driver.

(** ** Actions and the rejected set *)

Section Actions.

Context {engine : RegExpEngine}.

Ltac run_method H :=
  repeat progress
    (unfold begin, text_length, less, unput, input, terminate, restart, pushState, topState,
       popState, switchState, more, echo, discard, reset, bind, get, modify, ret, throw in H);
  repeat match type of H with
         | context [if ?b then _ else _] => destruct b
         | context [match ?o with Some _ => _ | None => _ end] => destruct o
         end;
  try discriminate.

(** Every call but [reject()] leaves the rejected set as it is, or empties
    it ([terminate()]). *)
Lemma run_call_rejected (c : Call) (l : Lexer) (v : JSVal) (l' : Lexer) :
  c <> CReject ->
  run_call c l = Ok v l' ->
  rejectedRules l' = rejectedRules l \/ rejectedRules l' = [].
Proof.
  intros Hc Hrun. destruct c; try congruence; cbn [run_call] in Hrun;
    run_method Hrun; injection Hrun as _ <-; cbn; auto.
Qed.

Lemma run_act_no_reject (a : Act) :
  forall l v l',
    no_reject a ->
    run_act a l = Ok v l' ->
    (length (rejectedRules l') <= length (rejectedRules l))%nat.
Proof.
  induction a as [v0|msg|c k IH]; intros l v l' Hno Hrun.
  - cbn in Hrun. unfold ret in Hrun. injection Hrun as _ <-. lia.
  - discriminate.
  - destruct Hno as [Hc Hk]. cbn [run_act] in Hrun. unfold bind in Hrun.
    destruct (run_call c l) as [v1 l1| |] eqn:Hcall; try discriminate.
    specialize (IH v1 l1 v l' (Hk v1) Hrun).
    destruct (run_call_rejected _ _ _ _ Hc Hcall) as [Heq|Heq];
      rewrite Heq in IH; cbn in IH; lia.
Qed.

Lemma run_rule_action_no_reject (r : Rule) (l : Lexer) (v : JSVal) (l' : Lexer) :
  rule_no_reject r ->
  run_rule_action r l = Ok v l' ->
  (length (rejectedRules l') <= length (rejectedRules l))%nat.
Proof.
  unfold rule_no_reject, run_rule_action. destruct (action r) as [a|].
  - apply run_act_no_reject.
  - intros _ Hrun. unfold discard, ret in Hrun. injection Hrun as _ <-. lia.
Qed.

End Actions.

(** ** Strings as lists of characters *)

Lemma chars_length (s : string) : length (chars s) = String.length s.
Proof. induction s as [|c s IH]; cbn; [reflexivity|]. f_equal. exact IH. Qed.

Lemma chars_append (s t : string) : chars (s +:+ t) = chars s ++ chars t.
Proof.
  unfold chars. induction s as [|c s IH]; [reflexivity|].
  change (String c s +:+ t) with (String c (s +:+ t)). cbn. f_equal. exact IH.
Qed.

Lemma chars_get (s : string) : forall n, String.get n s = chars s !! n.
Proof.
  unfold chars. induction s as [|c s IH]; intros [|n]; cbn; try reflexivity. apply IH.
Qed.

Lemma chars_substring (s : string) :
  forall a b, chars (substring a b s) = take b (drop a (chars s)).
Proof.
  unfold chars. induction s as [|c s IH]; intros [|a] [|b]; cbn; try reflexivity.
  - f_equal. apply (IH 0%nat b).
  - apply (IH a 0%nat).
  - apply (IH a (S b)).
Qed.

(** [source.substr(0, i)] and [source.substr(i)] for a cursor that is not
    negative: the characters before the cursor and those from it on. *)
Lemma chars_substr_before (s : string) (i : Z) :
  0 <= i -> chars (js_substr s 0 (Some i)) = take (Z.to_nat i) (chars s).
Proof.
  intros Hi. unfold js_substr, js_length. rewrite chars_substring. cbv zeta.
  change (0 <? 0) with false. cbv iota.
  pose proof (chars_length s) as Hlen.
  replace (Z.to_nat (Z.min 0 (Z.of_nat (String.length s)))) with 0%nat by lia.
  rewrite drop_0.
  destruct (decide (i <= Z.of_nat (String.length s))) as [Hle|Hgt].
  - f_equal. lia.
  - rewrite !take_ge; [reflexivity| |]; lia.
Qed.

Lemma chars_substr_after (s : string) (i : Z) :
  0 <= i -> chars (js_substr s i None) = drop (Z.to_nat i) (chars s).
Proof.
  intros Hi. unfold js_substr, js_length. rewrite chars_substring. cbv zeta.
  replace (i <? 0) with false by (symmetry; apply Z.ltb_ge; lia).
  pose proof (chars_length s) as Hlen.
  destruct (decide (i <= Z.of_nat (String.length s))) as [Hle|Hgt].
  - rewrite take_ge.
    + f_equal. lia.
    + rewrite length_drop. lia.
  - rewrite !drop_ge by lia. apply take_nil.
Qed.

Lemma js_charAt_lookup (s : string) (i : Z) (c : ascii) :
  0 <= i -> chars s !! Z.to_nat i = Some c -> js_charAt s i = String c "".
Proof.
  intros Hi Hc. unfold js_charAt.
  pose proof (lookup_lt_Some _ _ _ Hc) as Hlt. rewrite chars_length in Hlt.
  replace (i <? 0) with false by (symmetry; apply Z.ltb_ge; lia).
  replace (js_length s <=? i) with false by (symmetry; apply Z.leb_gt; unfold js_length; lia).
  cbn [orb]. rewrite chars_get, Hc. reflexivity.
Qed.

(** ** The cursor *)

Lemma js_length_chars (s : string) : js_length s = Z.of_nat (length (chars s)).
Proof. unfold js_length. rewrite chars_length. reflexivity. Qed.


(** The default rule keeps the cursor within the source. *)
Lemma default_echo_cursor (l : Lexer) :
  at_end l = false -> 0 <= index l -> cursor_ok (default_echo l).
Proof.
  unfold at_end, cursor_ok. intros Hend Hidx. apply Z.leb_gt in Hend.
  change (index (default_echo l)) with (index l + 1).
  change (source (default_echo l)) with (source l). lia.
Qed.


(** ** A scanner without rules *)

Section DefaultRule.

Context {engine : RegExpEngine}.

Lemma select_no_rules (l : Lexer) : rules l = ∅ -> select l = Ok no_selection l.
Proof.
  intros Hrules. unfold select, bind, get, active_rules.
  rewrite Hrules, lookup_empty. reflexivity.
Qed.

(** With no rule and no text carried over, [lex] echoes the characters from
    the cursor to the end of the input one by one, then ends the scan. *)
Lemma lex_echoes_rest (n : nat) :
  forall l fuel,
    rules l = ∅ ->
    readMore l = false ->
    0 <= index l ->
    (length (chars (source l)) - Z.to_nat (index l))%nat = n ->
    (n < fuel)%nat ->
    lex fuel l
    = Ok EOF (run_on reset
                (set_output
                   (output l
                    ++ map (fun c => Some (String c "")) (drop (Z.to_nat (index l)) (chars (source l))))
                   l)).
Proof.
  induction n as [|n IH]; intros l fuel Hrules Hmore Hidx Hn Hfuel.
  - destruct fuel as [|fuel]; [lia|].
    assert (Hend : at_end l = true).
    { unfold at_end, js_length. rewrite <- chars_length. apply Z.leb_le. lia. }
    cbn [lex]. unfold bind.
    rewrite (scan_end_of_input l Hend (select_no_rules l Hrules)).
    rewrite drop_ge by lia. cbn [map]. rewrite app_nil_r. reflexivity.
  - destruct fuel as [|fuel]; [lia|].
    assert (Hend : at_end l = false).
    { unfold at_end, js_length. rewrite <- chars_length. apply Z.leb_gt. lia. }
    destruct (chars (source l) !! Z.to_nat (index l)) as [c|] eqn:Hc.
    2:{ apply lookup_ge_None in Hc. lia. }
    cbn [lex]. unfold bind.
    rewrite (scan_default_echo l Hend (select_no_rules l Hrules)).
    assert (Hnext : Z.to_nat (index l + 1) = S (Z.to_nat (index l))) by lia.
    rewrite (IH (default_echo l) fuel).
    + change (output (default_echo l))
        with (output l ++ [Some (carried_text l +:+ js_charAt (source l) (index l))]).
      change (index (default_echo l)) with (index l + 1).
      change (source (default_echo l)) with (source l).
      unfold carried_text. rewrite Hmore. cbn [js_str].
      change ("" +:+ js_charAt (source l) (index l)) with (js_charAt (source l) (index l)).
      rewrite (js_charAt_lookup _ _ _ Hidx Hc), Hnext.
      rewrite (drop_S _ _ _ Hc). cbn [map]. rewrite <- app_assoc. reflexivity.
    + exact Hrules.
    + reflexivity.
    + change (index (default_echo l)) with (index l + 1). lia.
    + change (index (default_echo l)) with (index l + 1).
      change (source (default_echo l)) with (source l). lia.
    + lia.
Qed.

End DefaultRule.

(** * Main results *)

Section MainResults.

Context {engine : RegExpEngine}.

(** X27.  With tracing off, a pass that begins at the end of the input and
    selects a rule selects an EOF rule; when its action returns without a
    call to [reject()], the pass looks at the cursor again.  If the cursor is
    still at or past the end of the source, the pass returns EOF, the runtime
    state is the one [reset()] installs and the value of the action is
    dropped; if the action brought the cursor back inside the source, the
    pass returns the value of the action.  With tracing on the pass does not
    get that far ([scan_eof_rule_traced_throws]). *)
Theorem X27_untraced_eof_rule_rechecks_end
        (l : Lexer) (sel : Selection) (l' : Lexer) (r : Rule) (v : JSVal) (l2 : Lexer) :
  at_end l = true ->
  debugEnabled l = false ->
  select l = Ok sel l' ->
  matchedRule sel = Some r ->
  rule_no_reject r ->
  run_rule_action r (before_action sel l) = Ok v l2 ->
  isEOF r = true
  /\ (at_end l2 = true ->
      exists l3, scan l = Ok EOF l3 /\ is_reset l3 /\ same_config l2 l3
                 /\ output l3 = output l2 /\ console l3 = console l2)
  /\ (at_end l2 = false ->
      scan l = Ok v (set_rejectedRules [] l2)).
Proof.
  intros Hend Hdbg Hsel Hr Hno Hact.
  pose proof (select_frame _ _ _ Hsel) as ->.
  destruct (select_at_end _ _ _ _ Hend Hsel Hr) as [Heof _].
  pose proof (run_rule_action_no_reject _ _ _ _ Hno Hact) as Hlen.
  change (rejectedRules (before_action sel l)) with (rejectedRules l) in Hlen.
  pose proof (scan_selected _ _ _ _ _ Hsel Hr Hdbg Hact) as Hscan.
  replace (length (rejectedRules l) <? length (rejectedRules l2))%nat with false in Hscan
    by (symmetry; apply Nat.ltb_ge; exact Hlen).
  rewrite Hend in Hscan. cbn [andb] in Hscan.
  split; [exact Heof|]. split; intros Hend2; rewrite Hend2 in Hscan.
  - exists (run_on reset l2). split; [exact Hscan|].
    split; [apply reset_is_reset|]. repeat split.
  - exact Hscan.
Qed.

(** C5, as amended.  A candidate is taken only when its effective length is
    strictly above the best so far, and the best starts at 0.  So a rule the
    selector returns before the end of the input has a positive effective
    length; and when every match at the cursor has effective length 0 (an
    empty match of a rule without anchor flags), and every rule the loop
    reaches has an expression to run, the selector returns no rule and the
    pass falls through to the default rule, which echoes one character. *)
Theorem C5_zero_length_match_not_selected (l : Lexer) :
  at_end l = false ->
  (forall sel l' r,
      select l = Ok sel l' -> matchedRule sel = Some r ->
      0 < effective_length r (matchedValue sel))
  /\ ((forall j r m, candidate l (active_rules l) j r m -> effective_length r m = 0) ->
      (forall j r, active_rules l !! j = Some r -> is_rejected j l = false ->
                   expression r <> None) ->
      select l = Ok no_selection l /\ scan l = Ok VUndefined (default_echo l)).
Proof.
  intros Hend. split.
  - intros sel l' r Hsel Hr. eapply select_positive; eauto.
  - intros Hzero Hexpr.
    assert (Hsel : select l = Ok no_selection l).
    { unfold select, bind, get. rewrite Hend.
      apply (select_from_nothing l (active_rules l)); [|exact Hexpr|reflexivity].
      intros j r m Hc. rewrite (Hzero j r m Hc). lia. }
    split; [exact Hsel|]. apply scan_default_echo; assumption.
Qed.

(** C6.  On a scanner with no rule (and no text carried over), for every
    input string, [setSource(input)] followed by [lexAll()] returns the empty
    token list without an error, given a budget of passes above the length of
    the input, and the output has received the characters of the input one
    by one, in order, each as a one-character text. *)
Theorem C6_no_rules_echo_each_character (l : Lexer) (input : string) (fuel : nat) :
  rules l = ∅ ->
  readMore l = false ->
  (String.length input < fuel)%nat ->
  exists l',
    (setSource input;;; lexAll fuel) l = Ok [] l'
    /\ output l' = output l ++ single_chars input.
Proof.
  intros Hrules Hmore Hfuel.
  destruct fuel as [|fuel]; [lia|].
  unfold setSource, lexAll. unfold bind at 1. unfold bind at 1, modify at 1.
  unfold modify at 1. cbn [lexAll_from]. unfold bind at 1.
  rewrite (lex_echoes_rest (String.length input)).
  - eexists. split; [reflexivity|]. cbn. rewrite drop_0. reflexivity.
  - exact Hrules.
  - exact Hmore.
  - cbn. lia.
  - cbn. rewrite chars_length. lia.
  - lia.
Qed.

End MainResults.

(** C7.  [restart(newSource)] sets the cursor to 0 and installs the new
    source when one is given; the active state, the state stack, the
    configuration and every other field are as before. *)
Theorem C7_restart_frame (l : Lexer) (newSource : option string) :
  exists l',
    restart newSource l = Ok tt l'
    /\ index l' = 0
    /\ source l' = match newSource with Some s => s | None => source l end
    /\ state l' = state l
    /\ stateStack l' = stateStack l
    /\ same_config l l'
    /\ text l' = text l /\ ruleIndex l' = ruleIndex l /\ readMore l' = readMore l
    /\ rejectedRules l' = rejectedRules l
    /\ output l' = output l /\ console l' = console l.
Proof.
  destruct newSource as [s|]; eexists; (split; [reflexivity|]); repeat split.
Qed.

(** C8, as amended.  [unput(s)] checks nothing about its argument.  For a
    string [s], and for [undefined], [null], a boolean or a safe integer
    through the text [t] the [+] operator converts it to, it raises nothing:
    the source becomes the characters before the cursor, then [t] (the
    string itself when [s] is one), then the characters from the cursor on;
    the cursor stays where it is. *)
Theorem C8_unput_splices_without_type_check (l : Lexer) (s : JSVal) (t : string) :
  0 <= index l ->
  js_to_string s = Some t ->
  (js_is_string s = true -> s = VStr t)
  /\ exists l',
       unput s l = Ok tt l'
       /\ chars (source l')
          = take (Z.to_nat (index l)) (chars (source l))
            ++ chars t
            ++ drop (Z.to_nat (index l)) (chars (source l))
       /\ index l' = index l.
Proof.
  intros Hidx Ht. split.
  - destruct s; try discriminate. cbn in Ht. injection Ht as <-. reflexivity.
  - unfold unput. rewrite Ht. eexists. split; [reflexivity|]. split; [|reflexivity].
    cbn [source set_source]. rewrite !chars_append.
    rewrite chars_substr_before, chars_substr_after by exact Hidx. reflexivity.
Qed.

(** C9, as amended.  [addState(name, exclusive)] validates nothing: for
    every name, identifier or not, it raises no error and registers the
    state under that name, replacing an earlier entry; the other states and
    the rest of the scanner are untouched. *)
Theorem C9_addState_registers_any_name (l : Lexer) (name : string) (exclusive : bool) :
  exists l',
    addState name exclusive l = Ok tt l'
    /\ states l' !! name = Some (mkState name exclusive)
    /\ (forall other, other <> name -> states l' !! other = states l !! other)
    /\ definitions l' = definitions l /\ rules l' = rules l
    /\ state l' = state l /\ source l' = source l /\ index l' = index l.
Proof.
  eexists. split; [reflexivity|]. cbn [states set_states].
  split; [apply lookup_insert_eq|].
  split; [|repeat split].
  intros other Hne. apply lookup_insert_ne. congruence.
Qed.

Lemma unknown_state_true (l : Lexer) (s : string) :
  states l !! s = None ->
  inherited s = false ->
  s <> "name" ->
  s <> "exclusive" ->
  unknown_state l s = true.
Proof.
  intros Hs Hinh Hn He. unfold unknown_state, proto_member.
  rewrite bool_decide_eq_true_2 by exact Hs. rewrite Hinh.
  apply String.eqb_neq in Hn. apply String.eqb_neq in He. rewrite Hn, He.
  destruct (states l !! "__proto__"); reflexivity.
Qed.

Lemma unknown_state_registered (l : Lexer) (s : string) (st : StateRec) :
  states l !! s = Some st -> unknown_state l s = false.
Proof.
  intros Hs. unfold unknown_state. rewrite bool_decide_eq_false_2 by congruence. reflexivity.
Qed.

(** X26.  For a state name that a lookup on [states] does not find (no
    state is registered under it, it is no member of [Object.prototype] and
    it is neither [name] nor [exclusive], the members of a record),
    [pushState(s)] and [begin(s)] throw an [Error], and the scanner at the
    throw is the scanner of before the call: the check comes before any
    assignment. *)
Theorem X26_unknown_state_throws_unchanged (l : Lexer) (s : string) :
  states l !! s = None ->
  inherited s = false ->
  s <> "name" ->
  s <> "exclusive" ->
  (exists msg, pushState (Some s) l = Throw (Error msg) l)
  /\ (exists msg, begin (Some s) l = Throw (Error msg) l).
Proof.
  intros Hs Hinh Hn He. unfold pushState, begin, bind, get, throw. cbn [js_str].
  rewrite (unknown_state_true l s Hs Hinh Hn He).
  split; eexists; reflexivity.
Qed.

(** * Further properties of the selector *)

Section SelectorProperties.

Context {engine : RegExpEngine}.

(** X1.  Longest match, earliest rule on ties.  Before the end of the input,
    when every fixed-width rule that matches does so on a text of its width
    and carries no anchor flag, the rule the selector returns matches at the
    cursor, no other candidate has a greater effective length, and a
    candidate of the same effective length stands later in the list. *)
Theorem X1_longest_match_earliest_rule
        (l : Lexer) (sel : Selection) (l' : Lexer) (r : Rule) :
  at_end l = false ->
  literal_widths_exact l (active_rules l) ->
  select l = Ok sel l' ->
  matchedRule sel = Some r ->
  exists i,
    matchedIndex sel = Some i
    /\ candidate l (active_rules l) i r (matchedValue sel)
    /\ forall j r' m',
         candidate l (active_rules l) j r' m' ->
         effective_length r' m' <= effective_length r (matchedValue sel)
         /\ (effective_length r' m' = effective_length r (matchedValue sel) -> (i <= j)%nat).
Proof.
  intros Hend Hexact Hsel Hr.
  apply (select_longest_first l sel l' r Hend); [|exact Hsel|exact Hr].
  intros j r0 m w Hc Hw. destruct (Hexact j r0 m w Hc Hw) as (Hlen & Hb & He).
  unfold effective_length, anchor_bonus. rewrite Hb, He. lia.
Qed.

Lemma select_from_skips_rejected (rs : list Rule) :
  forall e i sel l sel' l' k,
    select_from e i rs sel l = Ok sel' l' ->
    (forall k0, matchedIndex sel = Some k0 -> is_rejected k0 l = false) ->
    matchedIndex sel' = Some k ->
    is_rejected k l = false.
Proof.
  induction rs as [|rule rest IH]; intros e i sel l sel' l' k Hrun Hinv Hk.
  - cbn in Hrun. unfold ret in Hrun. injection Hrun as <- _. auto.
  - rewrite select_from_cons in Hrun.
    destruct (is_rejected i l) eqn:Hrej; [eauto|].
    destruct e.
    + destruct (isEOF rule); [|eauto].
      injection Hrun as <- _. cbn in Hk. injection Hk as <-. exact Hrej.
    + destruct (match fixedWidth rule with None => _ | Some w => _ end); [|eauto].
      destruct (expression rule) as [re|]; [|discriminate].
      destruct (regexp_exec re (source l) (index l)) as [m|]; [|eauto].
      destruct (matchedValueLength sel <? effective_length rule m); [|eauto].
      eapply IH; [exact Hrun| |exact Hk].
      cbn. intros k0 [= <-]. exact Hrej.
Qed.

(** X2.  A rule whose index is in the rejected set is never the one the
    selector returns, at the end of the input or before it. *)
Theorem X2_rejected_rule_not_selected
        (l : Lexer) (sel : Selection) (l' : Lexer) (k : nat) :
  select l = Ok sel l' ->
  matchedIndex sel = Some k ->
  Some k ∉ rejectedRules l.
Proof.
  intros Hsel Hk. unfold select, bind, get in Hsel.
  assert (Hrej : is_rejected k l = false).
  { eapply select_from_skips_rejected; [exact Hsel| |exact Hk].
    intros k0 Hk0. discriminate. }
  unfold is_rejected in Hrej.
  intros Hin. rewrite bool_decide_eq_true_2 in Hrej by exact Hin. discriminate.
Qed.

Lemma select_from_end_first (l : Lexer) (rs0 : list Rule) :
  forall rs i sel,
    drop i rs0 = rs ->
    matchedIndex sel = None ->
    (forall j r, (j < i)%nat -> rs0 !! j = Some r -> isEOF r = true -> is_rejected j l = true) ->
    exists sel',
      select_from true i rs sel l = Ok sel' l
      /\ match matchedIndex sel' with
         | Some k =>
             exists r, rs0 !! k = Some r /\ matchedRule sel' = Some r
                       /\ isEOF r = true /\ is_rejected k l = false
                       /\ matchedValue sel' = ""
                       /\ forall j r', (j < k)%nat -> rs0 !! j = Some r' ->
                                       isEOF r' = true -> is_rejected j l = true
         | None =>
             sel' = sel
             /\ forall j r', rs0 !! j = Some r' -> isEOF r' = true -> is_rejected j l = true
         end.
Proof.
  intros rs. induction rs as [|rule rest IH]; intros i sel Hdrop Hnone Hbefore.
  - exists sel. split; [reflexivity|]. rewrite Hnone. split; [reflexivity|].
    intros j r' Hlk. apply (Hbefore j r'); [|exact Hlk].
    destruct (decide (j < i)%nat) as [|Hge]; [assumption|].
    apply lookup_lt_Some in Hlk.
    assert (length (drop i rs0) = 0%nat) as Hlen by (rewrite Hdrop; reflexivity).
    rewrite length_drop in Hlen. lia.
  - assert (Hlk : rs0 !! i = Some rule).
    { rewrite <- (Nat.add_0_r i), <- lookup_drop, Hdrop. reflexivity. }
    assert (Hdrop' : drop (S i) rs0 = rest).
    { rewrite (drop_S _ _ _ Hlk) in Hdrop. congruence. }
    rewrite select_from_cons.
    destruct (is_rejected i l) eqn:Hrej.
    { apply IH; [exact Hdrop'|exact Hnone|].
      intros j r Hj Hlkj Heof. destruct (decide (j = i)) as [->|Hne]; [exact Hrej|].
      apply (Hbefore j r); [lia|exact Hlkj|exact Heof]. }
    destruct (isEOF rule) eqn:Heof.
    + eexists. split; [reflexivity|]. cbn. exists rule. repeat split; assumption.
    + apply IH; [exact Hdrop'|exact Hnone|].
      intros j r Hj Hlkj Heofj. destruct (decide (j = i)) as [->|Hne].
      * congruence.
      * apply (Hbefore j r); [lia|exact Hlkj|exact Heofj].
Qed.

(** X3.  At the end of the input the selector never throws: it returns the
    first EOF rule of the active state that is not rejected, with an empty
    match, or no rule when every EOF rule of the state is rejected (or there
    is none). *)
Theorem X3_end_of_input_selects_first_eof_rule (l : Lexer) :
  at_end l = true ->
  exists sel,
    select l = Ok sel l
    /\ match matchedIndex sel with
       | Some k =>
           exists r, active_rules l !! k = Some r /\ matchedRule sel = Some r
                     /\ isEOF r = true /\ (Some k ∉ rejectedRules l)
                     /\ matchedValue sel = ""
                     /\ forall j r', (j < k)%nat -> active_rules l !! j = Some r' ->
                                     isEOF r' = true -> Some j ∈ rejectedRules l
       | None =>
           sel = no_selection
           /\ forall j r', active_rules l !! j = Some r' -> isEOF r' = true ->
                           Some j ∈ rejectedRules l
       end.
Proof.
  intros Hend. unfold select, bind, get. rewrite Hend.
  destruct (select_from_end_first l (active_rules l) (active_rules l) 0%nat no_selection)
    as (sel & Hsel & Hspec); [reflexivity|reflexivity|intros j r Hj; lia|].
  exists sel. split; [exact Hsel|].
  unfold is_rejected in Hspec.
  destruct (matchedIndex sel) as [k|].
  - destruct Hspec as (r & Hlk & Hr & Heof & Hrej & Hval & Hfirst).
    exists r. repeat split; try assumption.
    + intros Hin. rewrite bool_decide_eq_true_2 in Hrej by exact Hin. discriminate.
    + intros j r' Hj Hlkj Heofj.
      specialize (Hfirst j r' Hj Hlkj Heofj). apply bool_decide_eq_true in Hfirst. exact Hfirst.
  - destruct Hspec as [-> Hall]. split; [reflexivity|].
    intros j r' Hlkj Heofj. specialize (Hall j r' Hlkj Heofj).
    apply bool_decide_eq_true in Hall. exact Hall.
Qed.

(** X4.  A pass at the end of the input, on a state in which every EOF rule
    is rejected or which has none, returns EOF and leaves the runtime state
    that [reset()] installs; the configuration and what was echoed stay. *)
Theorem X4_end_of_input_without_eof_rule_terminates (l : Lexer) :
  at_end l = true ->
  (forall j r, active_rules l !! j = Some r -> isEOF r = true -> Some j ∈ rejectedRules l) ->
  exists l',
    scan l = Ok EOF l'
    /\ is_reset l' /\ same_config l l' /\ output l' = output l.
Proof.
  intros Hend Hnone.
  destruct (select_from_end_first l (active_rules l) (active_rules l) 0%nat no_selection)
    as (sel & Hsel & Hspec); [reflexivity|reflexivity|intros j r Hj; lia|].
  assert (sel = no_selection) as ->.
  { destruct (matchedIndex sel) as [k|].
    - destruct Hspec as (r & Hlk & _ & Heof & Hrej & _). exfalso.
      specialize (Hnone k r Hlk Heof). unfold is_rejected in Hrej.
      rewrite bool_decide_eq_true_2 in Hrej by exact Hnone. discriminate.
    - tauto. }
  assert (Hselect : select l = Ok no_selection l).
  { unfold select, bind, get. rewrite Hend. exact Hsel. }
  exists (run_on reset l). split; [apply scan_end_of_input; assumption|].
  split; [apply reset_is_reset|]. repeat split.
Qed.

End SelectorProperties.

(** * Further properties of the driver *)

Section DriverProperties.

Context {engine : RegExpEngine}.

Lemma quiet_call_run (c : Call) (l : Lexer) :
  quiet c = true ->
  exists v l', run_call c l = Ok v l' /\ same_token l l'.
Proof.
  intros Hc. destruct c; try discriminate; eexists _, _; (split; [reflexivity|]);
    repeat split.
Qed.

Lemma quiet_act_run (a : Act) :
  forall l,
    quiet_act a ->
    exists v l', run_act a l = Ok v l' /\ same_token l l'.
Proof.
  induction a as [v0|msg|c k IH]; intros l Hq.
  - eexists _, _. split; [reflexivity|]. repeat split.
  - destruct Hq.
  - destruct Hq as [Hc Hk].
    destruct (quiet_call_run c l Hc) as (v1 & l1 & Hcall & Hsame1).
    destruct (IH v1 l1 (Hk v1)) as (v & l' & Hrun & Hsame).
    exists v, l'. split.
    + cbn [run_act]. unfold bind. rewrite Hcall. exact Hrun.
    + unfold same_token in *.
      destruct Hsame1 as (E1 & E2 & E3 & E4 & E5 & E6).
      destruct Hsame as (F1 & F2 & F3 & F4 & F5 & F6).
      repeat split; congruence.
Qed.

(** An action that rejects once undoes the advance of the pass and records
    the rule. *)
Lemma rejects_once_run (a : Act) :
  forall l t,
    rejects_once a ->
    text l = Some t ->
    exists v l',
      run_act a l = Ok v l'
      /\ index l' = index l - js_length t
      /\ source l' = source l /\ state l' = state l /\ text l' = Some t
      /\ rejectedRules l' = rejectedRules l ++ [ruleIndex l].
Proof.
  induction a as [v0|msg|c k IH]; intros l t Hr Ht; [destruct Hr|destruct Hr|].
  destruct Hr as [[-> Hk]|[Hc Hk]].
  - set (l1 := set_rejectedRules (rejectedRules l ++ [ruleIndex l])
                 (set_index (index l - js_length t) l)).
    assert (Hcall : run_call CReject l = Ok VUndefined l1).
    { cbn [run_call]. unfold reject, text_length, bind, get, modify, ret. rewrite Ht.
      reflexivity. }
    destruct (quiet_act_run (k VUndefined) l1 (Hk VUndefined))
      as (v & l' & Hrun & Hi & Hs & Hst & Htx & _ & Hrej).
    exists v, l'. split.
    + cbn [run_act]. unfold bind. rewrite Hcall. exact Hrun.
    + rewrite Hi, Hs, Hst, Htx, Hrej. repeat split. exact Ht.
  - destruct (quiet_call_run c l Hc) as (v1 & l1 & Hcall & Hi & Hs & Hst & Htx & Hri & Hrej).
    destruct (IH v1 l1 t (Hk v1)) as (v & l' & Hrun & Hres).
    { rewrite Htx. exact Ht. }
    exists v, l'. split.
    + cbn [run_act]. unfold bind. rewrite Hcall. exact Hrun.
    + rewrite Hi, Hs, Hst, Hri, Hrej in Hres. exact Hres.
Qed.

(** X5.  With tracing off, a pass whose action calls [reject()] once, among
    calls that leave the cursor, the token text, the state and the rejected
    set alone ([echo()], [more()], [discard()], [topState()], reads of the
    fields), and returns, leaves the cursor where the pass found it, with or
    without text carried over by [more()]: the advance by the length of the
    token text is undone, the index of the rule is added to the rejected
    set, the value of the action is dropped and the pass returns nothing. *)
Theorem X5_rejecting_pass_rewinds_cursor
        (l : Lexer) (sel : Selection) (l' : Lexer) (r : Rule) (a : Act) :
  select l = Ok sel l' ->
  matchedRule sel = Some r ->
  debugEnabled l = false ->
  action r = Some a ->
  rejects_once a ->
  exists l2,
    scan l = Ok VUndefined l2
    /\ index l2 = index l
    /\ source l2 = source l
    /\ state l2 = state l
    /\ text l2 = Some (carried_text l +:+ matchedValue sel)
    /\ rejectedRules l2 = rejectedRules l ++ [matchedIndex sel].
Proof.
  intros Hsel Hr Hdbg Ha Hrej.
  pose proof (select_frame _ _ _ Hsel) as ->.
  destruct (rejects_once_run a (before_action sel l) (carried_text l +:+ matchedValue sel)
              Hrej eq_refl) as (v & l2 & Hrun & Hi & Hs & Hst & Htx & Hrj).
  assert (Hact : run_rule_action r (before_action sel l) = Ok v l2).
  { unfold run_rule_action. rewrite Ha. exact Hrun. }
  change (rejectedRules (before_action sel l)) with (rejectedRules l) in Hrj.
  change (ruleIndex (before_action sel l)) with (matchedIndex sel) in Hrj.
  exists l2. rewrite (scan_selected _ _ _ _ _ Hsel Hr Hdbg Hact).
  replace (length (rejectedRules l) <? length (rejectedRules l2))%nat with true.
  2:{ symmetry. apply Nat.ltb_lt. rewrite Hrj, length_app. cbn. lia. }
  split; [reflexivity|]. split.
  { rewrite Hi. cbn [index before_action set_index]. lia. }
  split; [exact Hs|]. split; [exact Hst|]. split; [exact Htx|exact Hrj].
Qed.

(** X6.  After [more()], the next match is appended to the token text: a
    pass before the end of the input that starts with text carried over and
    selects a rule without action ends with the carried text followed by
    the matched text, and the carry-over flag is cleared. *)
Theorem X6_more_appends_next_match
        (l : Lexer) (t : string) (sel : Selection) (l' : Lexer) (r : Rule) :
  at_end l = false ->
  readMore l = true ->
  text l = Some t ->
  select l = Ok sel l' ->
  matchedRule sel = Some r ->
  debugEnabled l = false ->
  action r = None ->
  exists l2,
    scan l = Ok VUndefined l2
    /\ text l2 = Some (t +:+ matchedValue sel)
    /\ readMore l2 = false
    /\ rejectedRules l2 = [].
Proof.
  intros Hend Hmore Htext Hsel Hr Hdbg Ha.
  pose proof (select_frame _ _ _ Hsel) as ->.
  assert (Hact : run_rule_action r (before_action sel l) = Ok VUndefined (before_action sel l)).
  { unfold run_rule_action. rewrite Ha. reflexivity. }
  rewrite (scan_selected _ _ _ _ _ Hsel Hr Hdbg Hact).
  change (rejectedRules (before_action sel l)) with (rejectedRules l).
  rewrite Nat.ltb_irrefl, Hend. cbn [andb].
  eexists. split; [reflexivity|]. cbn. unfold carried_text. rewrite Hmore, Htext.
  repeat split.
Qed.

(** X7.  The end of the input is looked at again only by a pass that began
    there: a pass that begins before the end and selects a rule whose action
    returns without [reject()] returns the value of the action and empties
    the rejected set, even when the action has consumed the rest of the
    input. *)
Theorem X7_pass_before_end_returns_action_value
        (l : Lexer) (sel : Selection) (l' : Lexer) (r : Rule) (v : JSVal) (l2 : Lexer) :
  at_end l = false ->
  debugEnabled l = false ->
  select l = Ok sel l' ->
  matchedRule sel = Some r ->
  rule_no_reject r ->
  run_rule_action r (before_action sel l) = Ok v l2 ->
  scan l = Ok v (set_rejectedRules [] l2).
Proof.
  intros Hend Hdbg Hsel Hr Hno Hact.
  pose proof (select_frame _ _ _ Hsel) as ->.
  pose proof (run_rule_action_no_reject _ _ _ _ Hno Hact) as Hlen.
  change (rejectedRules (before_action sel l)) with (rejectedRules l) in Hlen.
  rewrite (scan_selected _ _ _ _ _ Hsel Hr Hdbg Hact).
  replace (length (rejectedRules l) <? length (rejectedRules l2))%nat with false
    by (symmetry; apply Nat.ltb_ge; exact Hlen).
  rewrite Hend. reflexivity.
Qed.

Lemma lex_echoes_in_empty_state (n : nat) :
  forall l fuel,
    active_rules l = [] ->
    readMore l = false ->
    0 <= index l ->
    (length (chars (source l)) - Z.to_nat (index l))%nat = n ->
    (n < fuel)%nat ->
    lex fuel l
    = Ok EOF (run_on reset
                (set_output
                   (output l
                    ++ map (fun c => Some (String c "")) (drop (Z.to_nat (index l)) (chars (source l))))
                   l)).
Proof.
  assert (Hselect : forall l, active_rules l = [] -> select l = Ok no_selection l).
  { intros l Hrules. unfold select, bind, get. rewrite Hrules. reflexivity. }
  induction n as [|n IH]; intros l fuel Hrules Hmore Hidx Hn Hfuel.
  - destruct fuel as [|fuel]; [lia|].
    assert (Hend : at_end l = true).
    { unfold at_end, js_length. rewrite <- chars_length. apply Z.leb_le. lia. }
    cbn [lex]. unfold bind.
    rewrite (scan_end_of_input l Hend (Hselect l Hrules)).
    rewrite drop_ge by lia. cbn [map]. rewrite app_nil_r. reflexivity.
  - destruct fuel as [|fuel]; [lia|].
    assert (Hend : at_end l = false).
    { unfold at_end, js_length. rewrite <- chars_length. apply Z.leb_gt. lia. }
    destruct (chars (source l) !! Z.to_nat (index l)) as [c|] eqn:Hc.
    2:{ apply lookup_ge_None in Hc. lia. }
    cbn [lex]. unfold bind.
    rewrite (scan_default_echo l Hend (Hselect l Hrules)).
    assert (Hnext : Z.to_nat (index l + 1) = S (Z.to_nat (index l))) by lia.
    rewrite (IH (default_echo l) fuel).
    + change (output (default_echo l))
        with (output l ++ [Some (carried_text l +:+ js_charAt (source l) (index l))]).
      change (index (default_echo l)) with (index l + 1).
      change (source (default_echo l)) with (source l).
      unfold carried_text. rewrite Hmore. cbn [js_str].
      change ("" +:+ js_charAt (source l) (index l)) with (js_charAt (source l) (index l)).
      rewrite (js_charAt_lookup _ _ _ Hidx Hc), Hnext.
      rewrite (drop_S _ _ _ Hc). cbn [map]. rewrite <- app_assoc. reflexivity.
    + exact Hrules.
    + reflexivity.
    + change (index (default_echo l)) with (index l + 1). lia.
    + change (index (default_echo l)) with (index l + 1).
      change (source (default_echo l)) with (source l). lia.
    + lia.
Qed.

(** X8.  State isolation.  While the active state has no rule of its own,
    whatever rules the other states hold, and with the cursor not negative,
    [lex] echoes the characters from the cursor to the end of the input one
    by one and returns EOF, within a budget of passes above the number of
    characters left; the configuration is untouched.  When [more()] is
    pending as [lex] is called, the first echo carries the text kept over in
    front of its character. *)
Theorem X8_state_without_rules_echoes_input (l : Lexer) (fuel : nat) :
  active_rules l = [] ->
  0 <= index l ->
  (length (chars (source l)) - Z.to_nat (index l) < fuel)%nat ->
  exists l',
    lex fuel l = Ok EOF l'
    /\ output l'
       = output l
         ++ match drop (Z.to_nat (index l)) (chars (source l)) with
            | [] => []
            | c :: rest =>
                Some (carried_text l +:+ String c "")
                :: map (fun c => Some (String c "")) rest
            end
    /\ same_config l l'
    /\ is_reset l'.
Proof.
  intros Hrules Hidx Hfuel.
  assert (Hselect : select l = Ok no_selection l).
  { unfold select, bind, get. rewrite Hrules. reflexivity. }
  destruct fuel as [|fuel]; [lia|].
  destruct (chars (source l) !! Z.to_nat (index l)) as [c|] eqn:Hc.
  - assert (Hlt : (Z.to_nat (index l) < length (chars (source l)))%nat).
    { apply lookup_lt_is_Some. eauto. }
    assert (Hend : at_end l = false).
    { unfold at_end, js_length. rewrite <- chars_length. apply Z.leb_gt. lia. }
    cbn [lex]. unfold bind. rewrite (scan_default_echo l Hend Hselect).
    rewrite (lex_echoes_in_empty_state
               (length (chars (source l)) - S (Z.to_nat (index l))) (default_echo l) fuel).
    + eexists. split; [reflexivity|].
      split; [|split; repeat split].
      change (output (run_on reset ?x)) with (output x). cbn [output set_output].
      change (output (default_echo l))
        with (output l ++ [Some (carried_text l +:+ js_charAt (source l) (index l))]).
      change (index (default_echo l)) with (index l + 1).
      change (source (default_echo l)) with (source l).
      rewrite (js_charAt_lookup _ _ _ Hidx Hc).
      replace (Z.to_nat (index l + 1)) with (S (Z.to_nat (index l))) by lia.
      rewrite (drop_S _ _ _ Hc). rewrite <- app_assoc. reflexivity.
    + exact Hrules.
    + reflexivity.
    + change (index (default_echo l)) with (index l + 1). lia.
    + change (index (default_echo l)) with (index l + 1).
      change (source (default_echo l)) with (source l). lia.
    + lia.
  - apply lookup_ge_None in Hc.
    assert (Hend : at_end l = true).
    { unfold at_end, js_length. rewrite <- chars_length. apply Z.leb_le. lia. }
    cbn [lex]. unfold bind. rewrite (scan_end_of_input l Hend Hselect).
    eexists. split; [reflexivity|].
    split; [|split; repeat split].
    rewrite drop_ge by lia. rewrite app_nil_r. reflexivity.
Qed.

End DriverProperties.

(** * Reject exhaustion *)

Section RejectExhaustion.

Context {engine : RegExpEngine}.

(** The index and the rule the loop returns go together. *)
Lemma select_from_index_rule (l : Lexer) (rs0 : list Rule) :
  forall rs e i sel sel' l',
    drop i rs0 = rs ->
    select_from e i rs sel l = Ok sel' l' ->
    (forall r, matchedRule sel = Some r ->
               exists k, matchedIndex sel = Some k /\ rs0 !! k = Some r) ->
    forall r, matchedRule sel' = Some r ->
              exists k, matchedIndex sel' = Some k /\ rs0 !! k = Some r.
Proof.
  intros rs. induction rs as [|rule rest IH]; intros e i sel sel' l' Hdrop Hrun Hinv.
  - cbn in Hrun. unfold ret in Hrun. injection Hrun as <- _. exact Hinv.
  - assert (Hlk : rs0 !! i = Some rule).
    { rewrite <- (Nat.add_0_r i), <- lookup_drop, Hdrop. reflexivity. }
    assert (Hdrop' : drop (S i) rs0 = rest).
    { rewrite (drop_S _ _ _ Hlk) in Hdrop. congruence. }
    assert (Hnew : forall m n r,
               matchedRule (mkSelection (Some rule) (Some i) m n) = Some r ->
               exists k, matchedIndex (mkSelection (Some rule) (Some i) m n) = Some k
                         /\ rs0 !! k = Some r).
    { intros m n r [= <-]. exists i. split; [reflexivity|exact Hlk]. }
    rewrite select_from_cons in Hrun.
    destruct (is_rejected i l); [eauto|].
    destruct e.
    + destruct (isEOF rule); [|eauto]. injection Hrun as <- _. apply Hnew.
    + destruct (match fixedWidth rule with None => _ | Some w => _ end); [|eauto].
      destruct (expression rule) as [re|]; [|discriminate].
      destruct (regexp_exec re (source l) (index l)) as [m|]; [|eauto].
      destruct (matchedValueLength sel <? effective_length rule m); eauto.
Qed.

(** Before the end of the input the loop does not throw when every rule
    has an expression. *)
Lemma select_from_total (l : Lexer) :
  forall rs i sel,
    (forall r, r ∈ rs -> expression r <> None) ->
    exists sel', select_from false i rs sel l = Ok sel' l.
Proof.
  intros rs. induction rs as [|rule rest IH]; intros i sel Hexpr.
  - eexists. reflexivity.
  - assert (Hrest : forall r, r ∈ rest -> expression r <> None).
    { intros r Hr. apply Hexpr. right. exact Hr. }
    rewrite select_from_cons.
    destruct (is_rejected i l); [eauto|].
    destruct (match fixedWidth rule with None => _ | Some w => _ end); [|eauto].
    destruct (expression rule) as [re|] eqn:Hre.
    2:{ exfalso. apply (Hexpr rule); [left|exact Hre]. }
    destruct (regexp_exec re (source l) (index l)) as [m|]; [|eauto].
    destruct (matchedValueLength sel <? effective_length rule m); eauto.
Qed.

Lemma filter_length_drop_one (P Q : nat -> Prop)
      `{forall i, Decision (P i)} `{forall i, Decision (Q i)} (k : nat) (xs : list nat) :
  (forall i, Q i -> P i) -> P k -> ~ Q k -> k ∈ xs ->
  (length (filter Q xs) < length (filter P xs))%nat.
Proof.
  intros HQP HPk HQk.
  assert (Hle : forall ys, (length (filter Q ys) <= length (filter P ys))%nat).
  { induction ys as [|y ys IHy]; [reflexivity|].
    rewrite !filter_cons. destruct (decide (Q y)) as [Hq|Hq].
    - destruct (decide (P y)) as [|Hp]; [cbn; lia|]. exfalso. apply Hp, HQP, Hq.
    - destruct (decide (P y)); cbn; lia. }
  induction xs as [|x xs IH]; intros Hin; [inversion Hin|].
  rewrite !filter_cons. apply elem_of_cons in Hin as [<-|Hin].
  - destruct (decide (Q k)); [contradiction|].
    destruct (decide (P k)); [|contradiction]. cbn. specialize (Hle xs). lia.
  - specialize (IH Hin). destruct (decide (Q x)) as [Hq|Hq].
    + destruct (decide (P x)) as [|Hp]; [cbn; lia|]. exfalso. apply Hp, HQP, Hq.
    + destruct (decide (P x)); cbn; lia.
Qed.

(** A pass that selects a rejecting rule: the scanner it leaves. *)
Lemma scan_rejecting_pass (l : Lexer) (sel : Selection) (r : Rule) (v : JSVal) :
  select l = Ok sel l ->
  matchedRule sel = Some r ->
  debugEnabled l = false ->
  action r = Some (Do CReject (fun _ => Return v)) ->
  scan l
  = Ok VUndefined
       (set_rejectedRules (rejectedRules l ++ [matchedIndex sel])
          (set_index (index l + js_length (carried_text l +:+ matchedValue sel)
                      - js_length (carried_text l +:+ matchedValue sel))
             (before_action sel l))).
Proof.
  intros Hsel Hr Hdbg Ha.
  assert (Hact : run_rule_action r (before_action sel l)
                 = Ok v (set_rejectedRules (rejectedRules l ++ [matchedIndex sel])
                           (set_index (index l + js_length (carried_text l +:+ matchedValue sel)
                                       - js_length (carried_text l +:+ matchedValue sel))
                              (before_action sel l)))).
  { unfold run_rule_action. rewrite Ha. reflexivity. }
  rewrite (scan_selected _ _ _ _ _ Hsel Hr Hdbg Hact).
  cbn [rejectedRules set_rejectedRules].
  replace (length (rejectedRules l) <? length (rejectedRules l ++ [matchedIndex sel]))%nat
    with true; [reflexivity|].
  symmetry. apply Nat.ltb_lt. rewrite length_app. cbn. lia.
Qed.

Lemma lex_rejecting_rules (n : nat) :
  forall l fuel,
    debugEnabled l = false ->
    readMore l = false ->
    0 <= index l ->
    (forall r, r ∈ active_rules l -> rejecting_rule r) ->
    (length (chars (source l)) - Z.to_nat (index l) + unrejected l <= n)%nat ->
    (n < fuel)%nat ->
    lex fuel l
    = Ok EOF (run_on reset
                (set_output
                   (output l
                    ++ map (fun c => Some (String c "")) (drop (Z.to_nat (index l)) (chars (source l))))
                   l)).
Proof.
  induction n as [n IH] using lt_wf_ind. intros l fuel Hdbg Hmore Hidx Hrules Hn Hfuel.
  destruct fuel as [|fuel]; [lia|].
  cbn [lex]. unfold bind.
  destruct (at_end l) eqn:Hend.
  - (* the end of the input: no EOF rule, the scan terminates *)
    assert (Hsel : select l = Ok no_selection l).
    { destruct (select_from_end_first l (active_rules l) (active_rules l) 0%nat no_selection)
        as (sel & Hsel & Hspec); [reflexivity|reflexivity|intros j r Hj; lia|].
      unfold select, bind, get. rewrite Hend.
      destruct (matchedIndex sel) as [k|].
      + destruct Hspec as (r & Hlk & _ & Heof & _). exfalso.
        assert (Hin : r ∈ active_rules l) by (eapply list_elem_of_lookup_2; eauto).
        destruct (Hrules r Hin) as (_ & Hne & _). congruence.
      + destruct Hspec as [-> _]. exact Hsel. }
    rewrite (scan_end_of_input l Hend Hsel).
    unfold at_end in Hend. apply Z.leb_le in Hend. rewrite js_length_chars in Hend.
    rewrite drop_ge by lia. cbn [map]. rewrite app_nil_r. reflexivity.
  - unfold at_end in Hend. apply Z.leb_gt in Hend. rewrite js_length_chars in Hend.
    destruct (select_from_total l (active_rules l) 0%nat no_selection) as (sel & Hrun).
    { intros r Hr. apply (Hrules r Hr). }
    assert (Hsel : select l = Ok sel l).
    { unfold select, bind, get, at_end. rewrite js_length_chars.
      replace (Z.of_nat (length (chars (source l))) <=? index l) with false
        by (symmetry; apply Z.leb_gt; lia).
      exact Hrun. }
    assert (Hend' : at_end l = false).
    { unfold at_end. rewrite js_length_chars. apply Z.leb_gt. lia. }
    destruct (matchedRule sel) as [r|] eqn:Hr.
    + (* a rule is selected: it rejects, the cursor stays, one rule less is left *)
      destruct (select_from_index_rule l (active_rules l) _ _ _ _ _ _ eq_refl Hrun) with (r := r)
        as (k & Hk & Hlk); [intros r0 Hr0; discriminate|exact Hr|].
      assert (Hin : r ∈ active_rules l) by (eapply list_elem_of_lookup_2; eauto).
      destruct (Hrules r Hin) as (_ & _ & v & Ha).
      assert (Hnot : is_rejected k l = false).
      { eapply select_from_skips_rejected; [exact Hrun| |exact Hk].
        intros k0 Hk0. discriminate. }
      rewrite (scan_rejecting_pass l sel r v Hsel Hr Hdbg Ha).
      set (l1 := set_rejectedRules _ _).
      assert (Hidx1 : index l1 = index l).
      { unfold l1. cbn [index set_rejectedRules set_index]. lia. }
      assert (Hless : (unrejected l1 < unrejected l)%nat).
      { unfold unrejected.
        change (active_rules l1) with (active_rules l).
        change (rejectedRules l1) with (rejectedRules l ++ [matchedIndex sel]).
        rewrite Hk.
        apply (filter_length_drop_one _ _ k).
        - intros i Hi Hin'. apply Hi. apply elem_of_app. left. exact Hin'.
        - unfold is_rejected in Hnot. apply bool_decide_eq_false in Hnot. exact Hnot.
        - intros Hq. apply Hq. apply elem_of_app. right. left.
        - apply elem_of_seq. apply lookup_lt_Some in Hlk. lia. }
      rewrite (IH (length (chars (source l)) - Z.to_nat (index l) + unrejected l1)%nat
                  ltac:(lia) l1 fuel).
      * rewrite Hidx1. reflexivity.
      * exact Hdbg.
      * reflexivity.
      * rewrite Hidx1. exact Hidx.
      * exact Hrules.
      * rewrite Hidx1. change (source l1) with (source l). lia.
      * lia.
    + (* no rule is selected: the default rule echoes one character *)
      assert (sel = no_selection) as ->.
      { assert (Hinit : chosen_inv no_selection) by reflexivity.
        pose proof (select_from_chosen _ _ _ _ _ _ Hinit Hrun) as Hch.
        unfold chosen_inv in Hch. rewrite Hr in Hch. exact Hch. }
      rewrite (scan_default_echo l Hend' Hsel).
      destruct (chars (source l) !! Z.to_nat (index l)) as [c|] eqn:Hc.
      2:{ apply lookup_ge_None in Hc. lia. }
      assert (Hnext : Z.to_nat (index l + 1) = S (Z.to_nat (index l))) by lia.
      rewrite (IH (length (chars (source l)) - S (Z.to_nat (index l)) + unrejected l)%nat
                  ltac:(lia) (default_echo l) fuel).
      * change (output (default_echo l))
          with (output l ++ [Some (carried_text l +:+ js_charAt (source l) (index l))]).
        change (index (default_echo l)) with (index l + 1).
        change (source (default_echo l)) with (source l).
        unfold carried_text. rewrite Hmore. cbn [js_str].
        change ("" +:+ js_charAt (source l) (index l)) with (js_charAt (source l) (index l)).
        rewrite (js_charAt_lookup _ _ _ Hidx Hc), Hnext.
        rewrite (drop_S _ _ _ Hc). cbn [map]. rewrite <- app_assoc. reflexivity.
      * exact Hdbg.
      * reflexivity.
      * change (index (default_echo l)) with (index l + 1). lia.
      * exact Hrules.
      * change (index (default_echo l)) with (index l + 1).
        change (source (default_echo l)) with (source l).
        change (unrejected (default_echo l)) with (unrejected l). lia.
      * lia.
Qed.

(** X23.  Reject exhaustion.  With tracing off, no [more()] pending and
    the cursor not negative, when every rule of the active state is a rule
    with an expression whose action is [reject()] and a return, [lex] still
    comes to an end: each rejecting pass leaves the cursor in place and one
    rule less to select, each other pass echoes one character by the default
    rule, so that within a budget of passes above the number of characters
    left plus the number of rules not yet rejected [lex] returns EOF, having
    echoed every character from the cursor on, one by one. *)
Theorem X23_rejecting_rules_exhaust (l : Lexer) (fuel : nat) :
  debugEnabled l = false ->
  readMore l = false ->
  0 <= index l ->
  (forall r, r ∈ active_rules l -> rejecting_rule r) ->
  (length (chars (source l)) - Z.to_nat (index l) + unrejected l < fuel)%nat ->
  exists l',
    lex fuel l = Ok EOF l'
    /\ output l'
       = output l
         ++ map (fun c => Some (String c "")) (drop (Z.to_nat (index l)) (chars (source l)))
    /\ same_config l l'
    /\ is_reset l'.
Proof.
  intros Hdbg Hmore Hidx Hrules Hfuel.
  eexists. split; [eapply lex_rejecting_rules; eauto|].
  split; [reflexivity|]. split; repeat split.
Qed.

End RejectExhaustion.

(** * Debug tracing *)

Section Tracing.

Context {engine : RegExpEngine}.









End Tracing.

(** * The tokens of [lexAll] *)

Section Tokens.

Context {engine : RegExpEngine}.

Lemma lex_not_undefined (fuel : nat) :
  forall l v l', lex fuel l = Ok v l' -> v <> VUndefined.
Proof.
  induction fuel as [|fuel IH]; intros l v l' H; [discriminate|].
  cbn [lex] in H. unfold bind in H.
  destruct (scan l) as [r l1|e l1|]; [|discriminate|discriminate].
  destruct r; try (unfold ret in H; injection H as <- _; discriminate).
  eauto.
Qed.

Lemma lexAll_from_tokens (P : JSVal -> Prop) (fuel : nat) :
  (forall n l v l', lex n l = Ok v l' -> is_EOF v = false -> P v) ->
  forall acc l ts l',
    lexAll_from fuel acc l = Ok ts l' ->
    (forall t, t ∈ acc -> P t) ->
    forall t, t ∈ ts -> P t.
Proof.
  intros HP. induction fuel as [|fuel IH]; intros acc l ts l' H Hacc; [discriminate|].
  cbn [lexAll_from] in H. unfold bind in H.
  destruct (lex (S fuel) l) as [token l1|e l1|] eqn:Hlex; [|discriminate|discriminate].
  destruct (is_EOF token) eqn:Htok.
  - unfold ret in H. injection H as <- _. exact Hacc.
  - apply (IH _ _ _ _ H).
    intros t [Ht| ->%list_elem_of_singleton]%elem_of_app; [auto|].
    eapply HP; eauto.
Qed.

(** X25.  The array [lexAll] returns holds tokens only: none of its
    elements is [undefined] (the value of a pass that produced no token) and
    none is [EOF] (the value that ends the loop). *)
Theorem X25_lexAll_collects_tokens_only (fuel : nat) (l l' : Lexer) (ts : list JSVal) :
  lexAll fuel l = Ok ts l' ->
  forall t, t ∈ ts -> t <> VUndefined /\ is_EOF t = false.
Proof.
  intros H.
  apply (lexAll_from_tokens (fun t => t <> VUndefined /\ is_EOF t = false) fuel) with
    (acc := []) (l := l) (l' := l'); [|exact H|].
  - intros n l0 v l0' Hlex Hv. split; [eapply lex_not_undefined; eauto|exact Hv].
  - intros t Ht. inversion Ht.
Qed.

End Tokens.

(** * Further properties of the Action API *)

Lemma chars_inj (s t : string) : chars s = chars t -> s = t.
Proof.
  unfold chars. intros H.
  rewrite <- (string_of_list_ascii_of_string s), <- (string_of_list_ascii_of_string t).
  rewrite H. reflexivity.
Qed.

(** [source.substr(i, n)] for a cursor that is not negative: at most [n]
    characters from the cursor on. *)
Lemma chars_substr_from (s : string) (i n : Z) :
  0 <= i ->
  chars (js_substr s i (Some n)) = take (Z.to_nat n) (drop (Z.to_nat i) (chars s)).
Proof.
  intros Hi. unfold js_substr, js_length. rewrite chars_substring. cbv zeta.
  replace (i <? 0) with false by (symmetry; apply Z.ltb_ge; lia).
  pose proof (chars_length s) as Hlen.
  destruct (decide (i <= Z.of_nat (String.length s))) as [Hle|Hgt].
  - replace (Z.to_nat (Z.min i (Z.of_nat (String.length s)))) with (Z.to_nat i) by lia.
    destruct (decide (Z.to_nat n <= String.length s - Z.to_nat i)%nat) as [Hn|Hn].
    + f_equal. lia.
    + rewrite !take_ge; [reflexivity| |]; rewrite length_drop; lia.
  - rewrite !drop_ge by lia. rewrite !take_nil. reflexivity.
Qed.

(** X9.  [less(n)] with [n] between 0 and the length of the token text keeps
    the first [n] characters of the text and moves the cursor back by the
    number of characters given up; with [n] above the length of the text it
    does nothing. *)
Theorem X9_less_keeps_prefix_and_rewinds (l : Lexer) (t : string) (n : Z) :
  text l = Some t ->
  (js_length t < n -> less n l = Ok tt l)
  /\ (0 <= n <= js_length t ->
      exists t' l',
        less n l = Ok tt l'
        /\ text l' = Some t'
        /\ chars t' = take (Z.to_nat n) (chars t)
        /\ js_length t' = n
        /\ index l' = index l - (js_length t - n)
        /\ source l' = source l).
Proof.
  intros Ht. unfold less, text_length, bind, get, ret, modify. rewrite Ht. split.
  - intros Hn. replace (js_length t <? n) with true by (symmetry; apply Z.ltb_lt; lia).
    reflexivity.
  - intros Hn. replace (js_length t <? n) with false by (symmetry; apply Z.ltb_ge; lia).
    eexists _, _. split; [reflexivity|]. cbn. rewrite Ht. cbn [js_str].
    split; [reflexivity|].
    assert (Hc : chars (js_substr t 0 (Some n)) = take (Z.to_nat n) (chars t)).
    { rewrite chars_substr_from by lia. rewrite drop_0. reflexivity. }
    split; [exact Hc|]. split; [|split; reflexivity].
    rewrite js_length_chars, Hc, length_take. rewrite js_length_chars in Hn. lia.
Qed.

(** X10.  [input(n)] returns the characters from the cursor on, at most [n]
    of them ([1] when [n] is omitted, none when [n] is negative), and
    advances the cursor by the number of characters returned; at the end of
    the input it returns the empty string and the cursor stays. *)
Theorem X10_input_reads_from_cursor (l : Lexer) (n : option Z) :
  0 <= index l ->
  exists v l',
    input n l = Ok v l'
    /\ chars v
       = take (Z.to_nat (match n with None => 1 | Some k => k end))
              (drop (Z.to_nat (index l)) (chars (source l)))
    /\ index l' = index l + js_length v
    /\ source l' = source l
    /\ (at_end l = true -> v = "" /\ index l' = index l).
Proof.
  intros Hidx. unfold input, bind, get, modify, ret. eexists _, _. split; [reflexivity|].
  assert (Hc : chars (js_substr (source l) (index l)
                        (Some (match n with None => 1 | Some k => k end)))
               = take (Z.to_nat (match n with None => 1 | Some k => k end))
                      (drop (Z.to_nat (index l)) (chars (source l)))).
  { apply chars_substr_from. exact Hidx. }
  split; [exact Hc|]. split; [reflexivity|]. split; [reflexivity|].
  intros Hend. unfold at_end in Hend. apply Z.leb_le in Hend.
  rewrite js_length_chars in Hend.
  rewrite drop_ge, take_nil in Hc by lia.
  apply (chars_inj _ "") in Hc. rewrite Hc. split; [reflexivity|].
  cbn [index set_index]. unfold js_length. cbn. lia.
Qed.

(** X11.  What [unput(s)] puts back is what is read next: with the cursor
    within the source, [unput(s)] followed by [input(s.length)] returns [s],
    and the cursor then stands right after the spliced text. *)
Theorem X11_unput_then_input_reads_back (l : Lexer) (s : string) :
  cursor_ok l ->
  exists l',
    (unput (VStr s);;; input (Some (js_length s))) l = Ok s l'
    /\ index l' = index l + js_length s
    /\ chars (source l')
       = take (Z.to_nat (index l)) (chars (source l))
         ++ chars s
         ++ drop (Z.to_nat (index l)) (chars (source l)).
Proof.
  unfold cursor_ok. intros [Hlo Hhi]. rewrite js_length_chars in Hhi.
  assert (Hsrc : chars (js_substr (source l) 0 (Some (index l)) +:+ s
                        +:+ js_substr (source l) (index l) None)
                 = take (Z.to_nat (index l)) (chars (source l))
                   ++ chars s ++ drop (Z.to_nat (index l)) (chars (source l))).
  { rewrite !chars_append, chars_substr_before, chars_substr_after by lia. reflexivity. }
  assert (Hval : js_substr (js_substr (source l) 0 (Some (index l)) +:+ s
                            +:+ js_substr (source l) (index l) None)
                           (index l) (Some (js_length s)) = s).
  { apply chars_inj. rewrite chars_substr_from by lia. rewrite Hsrc.
    rewrite drop_app_length' by (rewrite length_take; lia).
    rewrite js_length_chars, Nat2Z.id. apply take_app_length. }
  unfold unput, input, bind, get, modify, ret. cbn [source index set_source set_index js_to_string].
  rewrite Hval. eexists. split; [reflexivity|]. split; [reflexivity|]. exact Hsrc.
Qed.

(** X12.  [pushState(s)] then [popState()] is a round trip: for a registered
    state [s], and an active state that is registered, the push makes [s]
    active with the former state on top of the stack ([topState()] returns
    it without a change), and the pop gives back the scanner of before the
    push. *)
Theorem X12_pushState_popState_round_trip (l : Lexer) (s : string) (st st0 : StateRec) :
  states l !! s = Some st ->
  states l !! state l = Some st0 ->
  exists l1,
    pushState (Some s) l = Ok tt l1
    /\ state l1 = s
    /\ stateStack l1 = stateStack l ++ [state l]
    /\ topState l1 = Ok (Some (state l)) l1
    /\ popState l1 = Ok tt l.
Proof.
  intros Hs Hcur.
  pose proof (unknown_state_registered l s st Hs) as Hs'.
  pose proof (unknown_state_registered l (state l) st0 Hcur) as Hcur'.
  eexists. split.
  { unfold pushState, begin, bind, get, modify, throw. cbn [js_str]. rewrite Hs'.
    change (unknown_state (set_stateStack ?x l) s) with (unknown_state l s).
    rewrite Hs'. reflexivity. }
  split; [reflexivity|]. split; [reflexivity|]. split.
  { unfold topState, bind, get, ret. cbn [stateStack set_state set_stateStack].
    rewrite last_snoc. reflexivity. }
  unfold popState, begin, bind, get, modify, throw.
  cbn [stateStack set_state set_stateStack]. rewrite last_snoc.
  change (unknown_state (set_stateStack ?x ?y) (state l)) with (unknown_state l (state l)).
  rewrite Hcur'.
  rewrite removelast_last. destruct l; reflexivity.
Qed.


(** * Further properties of the configuration API *)

(** X14.  [escapeRegExp] loses nothing: two literals with the same escaped
    source are the same literal. *)
Theorem X14_escapeRegExp_injective (s : string) :
  forall t, escapeRegExp s = escapeRegExp t -> s = t.
Proof.
  induction s as [|c s IH]; intros [|d t] H; cbn [escapeRegExp] in H.
  - reflexivity.
  - destruct (is_regexp_special d); discriminate.
  - destruct (is_regexp_special c); discriminate.
  - (* a character that is escaped starts with a backslash, which is itself
       escaped: the mixed cases are impossible *)
    destruct (is_regexp_special c) eqn:Hc, (is_regexp_special d) eqn:Hd;
      simplify_eq; f_equal; auto.
Qed.

Lemma js_substr_first (s : string) :
  js_substr s 0 (Some 1) = match s with EmptyString => "" | String c _ => String c "" end.
Proof.
  apply chars_inj. rewrite chars_substr_from by lia. rewrite drop_0.
  destruct s; reflexivity.
Qed.

Lemma js_substr_last (s : string) :
  js_substr s (-1) None = match last (chars s) with Some c => String c "" | None => "" end.
Proof.
  apply chars_inj. unfold js_substr, js_length. rewrite chars_substring. cbv zeta.
  change (-1 <? 0) with true. cbv iota.
  pose proof (chars_length s) as Hlen.
  destruct (chars s) as [|c cs] eqn:Hcs using rev_ind.
  - cbn in Hlen. rewrite <- Hlen. reflexivity.
  - clear IHcs. rewrite last_snoc. rewrite length_app in Hlen. cbn in Hlen.
    rewrite take_ge by (rewrite length_drop, length_app; cbn; lia).
    replace (Z.to_nat (Z.max (Z.of_nat (String.length s) + -1) 0)) with (length cs) by lia.
    rewrite drop_app_length. reflexivity.
Qed.

Lemma escapeRegExp_last (s : string) : last (chars (escapeRegExp s)) = last (chars s).
Proof.
  unfold chars. induction s as [|c s IH]; [reflexivity|].
  cbn [escapeRegExp]. destruct (is_regexp_special c); cbn [list_ascii_of_string].
  - rewrite last_cons.
    change (list_ascii_of_string (String c (escapeRegExp s)))
      with (c :: list_ascii_of_string (escapeRegExp s)).
    rewrite !last_cons, IH. destruct (last (list_ascii_of_string s)); reflexivity.
  - rewrite !last_cons, IH. reflexivity.
Qed.

(** X15.  The anchor flags of a literal pattern.  The compiled source of a
    literal is its escaped text: [isRegExpMatchBOL] never holds for it (a
    leading [^] is escaped), and [isRegExpMatchEOL] holds exactly when the
    literal ends in a dollar, whose escape still ends in a dollar. *)
Theorem X15_anchor_flags_of_a_literal (s flags : string) :
  isRegExpMatchBOL (mkRegExp (escapeRegExp s) flags) = false
  /\ (isRegExpMatchEOL (mkRegExp (escapeRegExp s) flags) = true <-> ends_with_dollar s).
Proof.
  unfold isRegExpMatchBOL, isRegExpMatchEOL, ends_with_dollar. cbn [re_source]. split.
  - rewrite js_substr_first. destruct s as [|c s]; [reflexivity|].
    cbn [escapeRegExp]. destruct (is_regexp_special c) eqn:Hc; [reflexivity|].
    apply String.eqb_neq. intros [= ->]. discriminate Hc.
  - rewrite js_substr_last, escapeRegExp_last.
    destruct (last (chars s)) as [c|].
    + split.
      * intros H. apply String.eqb_eq in H. injection H as ->. reflexivity.
      * intros [= ->]. reflexivity.
    + split; intros H; discriminate H.
Qed.

Lemma encodeString_append (s t : string) :
  encodeString (s +:+ t) = encodeString s +:+ encodeString t.
Proof.
  induction s as [|c s IH]; [reflexivity|].
  change (String c s +:+ t) with (String c (s +:+ t)). cbn [encodeString].
  rewrite IH. apply chars_inj. rewrite !chars_append, app_assoc. reflexivity.
Qed.

(** X16.  [encodeString] is idempotent: what it produces holds none of the
    characters it replaces, so that a second pass changes nothing. *)
Theorem X16_encodeString_idempotent (s : string) :
  encodeString (encodeString s) = encodeString s.
Proof.
  induction s as [|c s IH]; [reflexivity|].
  cbn [encodeString]. rewrite encodeString_append, IH. f_equal.
  repeat match goal with
         | |- context [if ?b then _ else _] => destruct b eqn:?
         end; try reflexivity.
  cbn [encodeString]. repeat match goal with H : _ = false |- _ => rewrite H; clear H end.
  reflexivity.
Qed.

Lemma assoc_get_set_eq (k v : string) (d : list (string * string)) :
  assoc_get k (assoc_set k v d) = Some v.
Proof.
  induction d as [|[k' v'] d IH]; cbn.
  - rewrite String.eqb_refl. reflexivity.
  - destruct (String.eqb k k') eqn:Hk; cbn; rewrite ?String.eqb_refl, ?Hk; auto.
Qed.

Lemma assoc_get_set_ne (k k0 v : string) (d : list (string * string)) :
  k0 <> k -> assoc_get k0 (assoc_set k v d) = assoc_get k0 d.
Proof.
  intros Hne. induction d as [|[k' v'] d IH]; cbn.
  - apply String.eqb_neq in Hne. rewrite Hne. reflexivity.
  - destruct (String.eqb k k') eqn:Hk; cbn.
    + apply String.eqb_eq in Hk. subst k'.
      apply String.eqb_neq in Hne. rewrite Hne. reflexivity.
    + rewrite IH. reflexivity.
Qed.

Lemma idRegExp_test_true (n : string) :
  idRegExp_test n = true <-> exists c, In c (chars n) /\ is_id_start c = true.
Proof. unfold idRegExp_test. apply existsb_exists. Qed.

(** The two names an array does not store as a definition.  Under
    [__proto__] nothing is stored and nothing is raised; under [length] a
    literal without a digit that is not blank raises a [RangeError], and
    nothing is stored either. *)
Lemma addDefinition_array_keys (l : Lexer) (e : string) :
  e <> "" ->
  addDefinition (VStr "__proto__") (ExprString e) l = Ok tt l
  /\ (existsb is_digit (chars (escapeRegExp e)) = false ->
      forallb is_js_space (chars (escapeRegExp e)) = false ->
      exists msg, addDefinition (VStr "length") (ExprString e) l = Throw (RangeError msg) l).
Proof.
  intros He. apply String.eqb_neq in He.
  unfold addDefinition, store_definition. cbn [idRegExp_test]. split.
  - replace (idRegExp_test "__proto__") with true by reflexivity.
    cbn [negb]. rewrite He. reflexivity.
  - intros Hd Hb. replace (idRegExp_test "length") with true by reflexivity.
    cbn [negb]. rewrite He.
    replace ("length" =? "__proto__")%string with false by reflexivity.
    replace ("length" =? "length")%string with true by reflexivity.
    rewrite Hb, Hd. eexists. reflexivity.
Qed.

(** X17.  [addDefinition] with a string name other than [length] and
    [__proto__] that holds a letter or an underscore somewhere, and a
    non-empty literal, raises nothing and stores the escaped literal under
    the name: reading the name gives it back, the other definitions read as
    before and nothing else changes. *)
Theorem X17_addDefinition_stores_escaped_literal (l : Lexer) (n e : string) :
  (exists c, In c (chars n) /\ is_id_start c = true) ->
  n <> "length" ->
  n <> "__proto__" ->
  e <> "" ->
  exists l',
    addDefinition (VStr n) (ExprString e) l = Ok tt l'
    /\ assoc_get n (definitions l') = Some (escapeRegExp e)
    /\ (forall n', n' <> n -> assoc_get n' (definitions l') = assoc_get n' (definitions l))
    /\ states l' = states l /\ rules l' = rules l /\ source l' = source l
    /\ index l' = index l /\ state l' = state l.
Proof.
  intros Hn Hlen Hproto He. apply idRegExp_test_true in Hn.
  unfold addDefinition, store_definition. rewrite Hn. cbn [negb].
  apply String.eqb_neq in He. rewrite He.
  apply String.eqb_neq in Hlen. apply String.eqb_neq in Hproto. rewrite Hlen, Hproto.
  eexists. split; [reflexivity|]. cbn [definitions set_definitions].
  split; [apply assoc_get_set_eq|]. split; [|repeat split].
  intros n' Hne. apply assoc_get_set_ne. exact Hne.
Qed.

(** X18.  [addDefinition] with a name that holds neither a letter nor an
    underscore throws, whatever the expression, and the scanner is left as it
    was; so does every call of [addDefinition] that throws. *)
Theorem X18_addDefinition_refusal_changes_nothing
        (l : Lexer) (name : JSVal) (expr : Expression) :
  (forall n, name = VStr n ->
             (forall c, In c (chars n) -> is_id_start c = false) ->
             exists msg, addDefinition name expr l = Throw (Error msg) l)
  /\ (forall e l', addDefinition name expr l = Throw e l' -> l' = l).
Proof.
  split.
  - intros n -> Hn.
    assert (Ht : idRegExp_test n = false).
    { destruct (idRegExp_test n) eqn:Ht; [|reflexivity].
      apply idRegExp_test_true in Ht. destruct Ht as (c & Hin & Hc).
      rewrite (Hn c Hin) in Hc. discriminate. }
    unfold addDefinition. rewrite Ht. eexists. reflexivity.
  - intros e l' H. unfold addDefinition, store_definition, throw, modify, ret, unmodelled in H.
    repeat match type of H with
           | context [if ?b then _ else _] => destruct b
           | context [match ?x with _ => _ end] => destruct x
           end; congruence.
Qed.

(** [clear()] forgets the configuration and the runtime state of the
    scanner it is called on: what is left is the scanner [new Lexer()]
    builds, with only what was already echoed and logged kept. *)
Lemma clear_gives_a_fresh_scanner (l : Lexer) :
  clear l = Ok tt (set_console (console l) (set_output (output l) newLexer)).
Proof. reflexivity. Qed.

(** * Registration of rules *)



Section RuleRegistration.

Context {engine : RegExpEngine}.


(** The one exception the loop raises is the [TypeError] of a [push] that
    is not there. *)
Lemma push_rules_throws (rule : Rule) (sts : list string) :
  forall l e l',
    push_rules rule sts l = Throw e l' ->
    exists msg, e = TypeError msg.
Proof.
  induction sts as [|st sts IH]; intros l e l' H; [discriminate|].
  cbn [push_rules] in H. unfold bind at 1, get at 1 in H.
  destruct (bool_decide (rules l !! st = None) && inherited st).
  - unfold throw in H. injection H as <- _. eexists. reflexivity.
  - unfold bind at 1, modify at 1 in H. eauto.
Qed.


(** X19.  A call of [addStateRule] refused by one of its own checks, the
    ones that throw an [Error] (empty or unregistered states, empty or
    unsupported pattern, unsupported flags), has registered nothing: the
    scanner is the one of before the call.  (The [TypeError] of [push] on a
    state named like a member of [Object.prototype] comes after the checks,
    when earlier states of the list have received the rule.) *)
Theorem X19_refused_rule_changes_nothing
        (sts : StatesArg) (expr : Expression) (act : option Act)
        (l : Lexer) (msg : string) (l' : Lexer) :
  addStateRule sts expr act l = Throw (Error msg) l' -> l' = l.
Proof.
  intros H. unfold addStateRule, bind at 1, get at 1 in H.
  change (filter _ match sts with StatesDefault => _ | StatesName s => _ | StatesList ss => _ end)
    with (target_states sts l) in H.
  cbv zeta in H.
  destruct (length (target_states sts l) =? 0)%nat; [unfold throw in H; congruence|].
  destruct (negb _); [unfold throw in H; congruence|].
  unfold compileRuleExpression, bind, get, ret, throw, unmodelled in H.
  assert (Hpush : forall rule, push_rules rule (target_states sts l) l = Throw (Error msg) l' ->
                               l' = l).
  { intros rule Hp. apply push_rules_throws in Hp as [m Hm]. discriminate. }
  destruct (_ && existsb _ (target_states sts l)).
  { destruct expr as [e|re|v]; repeat match type of H with
                                       | context [if ?b then _ else _] => destruct b
                                       | context [match ?o with Some _ => _ | None => _ end] =>
                                           destruct o
                                       end; congruence. }
  destruct expr as [e|re|v].
  - destruct (String.eqb e RULE_EOF); [eauto|].
    destruct (String.eqb e ""); [congruence|eauto].
  - destruct (String.eqb (re_source re) "(?:)"); [congruence|].
    destruct (negb _); [congruence|eauto].
  - destruct (js_to_string v); [congruence|discriminate].
Qed.








(** X22.  [addStateRules] registers the rules of its array one after the
    other: giving an array in one call is giving its two halves in two
    calls, so that the rules before one that is refused stay registered. *)
Theorem X22_addStateRules_splits (sts : StatesArg) (rs1 rs2 : list RuleSpec) (l : Lexer) :
  addStateRules sts (rs1 ++ rs2) l
  = (addStateRules sts rs1;;; addStateRules sts rs2) l.
Proof.
  revert l. induction rs1 as [|r rs1 IH]; intros l.
  - reflexivity.
  - cbn [app addStateRules]. unfold bind.
    destruct (addStateRule sts (spec_expression r) (spec_action r) l) as [[] l1|e l1|];
      [|reflexivity|reflexivity].
    rewrite IH. reflexivity.
Qed.

End RuleRegistration.

(** * The scanner at work

    The statements below run configurations of [Examples] on [MiniEngine]. *)

Import MiniEngine.

(** ** The test suite of the repository, replayed *)

Example replay_echo_all :
  exists l, (setSource "bla bla bla";;; lex 20) newLexer = Ok EOF l
            /\ output l = single_chars "bla bla bla".
Proof. eexists. split; vm_compute; reflexivity. Qed.

Example replay_zap_me :
  exists l, lex 30 Examples.zap_me = Ok EOF l
            /\ js_join "" (map js_str (output l)) = "bla  bla  bla".
Proof. eexists. split; vm_compute; reflexivity. Qed.

Example replay_multiple_rejects :
  exists l, lex 30 Examples.multiple_rejects = Ok EOF l
            /\ js_join "" (map js_str (output l)) = "abcdabcaba".
Proof. eexists. split; vm_compute; reflexivity. Qed.

Example replay_more :
  exists l, lex 30 Examples.mega_kludge = Ok EOF l
            /\ js_join "" (map js_str (output l)) = "mega-mega-kludge".
Proof. eexists. split; vm_compute; reflexivity. Qed.

Example replay_unput :
  exists l, lex 30 Examples.unput_foobar = Ok EOF l
            /\ js_join "" (map js_str (output l)) = "(foobar)".
Proof. eexists. split; vm_compute; reflexivity. Qed.

(** An EOF rule met before the end of the input: the loop hands its [null]
    expression to [execRegExp], which throws. *)
Example eof_rule_before_end_throws :
  exists e,
    (addRule (ExprString RULE_EOF) None;;; setSource "a";;; scan) newLexer
    = Throw (TypeError e)
            (run_on (addRule (ExprString RULE_EOF) None;;; setSource "a") newLexer).
Proof. eexists. vm_compute. reflexivity. Qed.

(** ** The selector on literals that end in a dollar *)

(** C1.  With the rules ['$'] and ['$$'] and the source ['$$'], the selector
    returns the first rule, of effective length 2 (one character and the
    bonus of the end-of-line flag that [isRegExpMatchEOL] reads off the
    escaped source), although the second rule is not rejected and matches
    ['$$'] at the cursor with effective length 3: its fixed width 2 is not
    above the best so far and the loop never runs its expression. *)
Theorem C1_fixed_width_shortcut_skips_longer_match :
  at_end Examples.dollars = false
  /\ rejectedRules Examples.dollars = []
  /\ exists r0 r1,
       active_rules Examples.dollars = [r0; r1]
       /\ fixedWidth r1 = Some 2 /\ hasEOL r1 = true
       /\ select Examples.dollars
          = Ok (mkSelection (Some r0) (Some 0%nat) "$" 2) Examples.dollars
       /\ effective_length r0 "$" = 2
       /\ candidate Examples.dollars (active_rules Examples.dollars) 1 r1 "$$"
       /\ effective_length r1 "$$" = 3.
Proof.
  split; [reflexivity|]. split; [reflexivity|].
  eexists _, _. split; [vm_compute; reflexivity|].
  repeat split; try (vm_compute; reflexivity).
  eexists. split; vm_compute; reflexivity.
Qed.

(** ** The cursor after [more()] *)

(** C2.  On ['mega-kludge'], the first pass matches ['mega-'], whose action
    calls [more()], and leaves the cursor at 5; the second pass matches
    ['kludge'] and advances the cursor by the length of the whole text
    ['mega-kludge']: the cursor is 16 in a source of 11 characters. *)
Theorem C2_more_moves_cursor_past_end :
  exists l1 l2,
    scan Examples.mega_kludge = Ok VUndefined l1
    /\ readMore l1 = true /\ index l1 = 5 /\ js_length (source l1) = 11
    /\ scan l1 = Ok VUndefined l2
    /\ text l2 = Some "mega-kludge"
    /\ index l2 = 16 /\ js_length (source l2) = 11.
Proof.
  eexists _, _. split; [vm_compute; reflexivity|].
  repeat split; vm_compute; reflexivity.
Qed.

(** ** The rejected set after the default rule *)

(** C3.  On ['aa'] with the one rule ['a'] whose action is [reject()], the
    first pass records the rule as rejected and rewinds; the second pass
    matches no rule, the default rule echoes one character and advances the
    cursor, no [reject()] is recorded, and the rejected set still holds the
    rule at the end of the pass; at the next character the rule is skipped
    again. *)
Theorem C3_default_rule_keeps_rejected_set :
  exists l1 l2 l3,
    scan Examples.reject_only = Ok VUndefined l1
    /\ index l1 = 0 /\ rejectedRules l1 = [Some 0%nat]
    /\ scan l1 = Ok VUndefined l2
    /\ index l2 = 1 /\ output l2 = [Some "a"]
    /\ rejectedRules l2 = [Some 0%nat]
    /\ scan l2 = Ok VUndefined l3
    /\ index l3 = 2 /\ output l3 = [Some "a"; Some "a"]
    /\ rejectedRules l3 = [Some 0%nat].
Proof.
  eexists _, _, _. split; [vm_compute; reflexivity|].
  do 2 (split; [vm_compute; reflexivity|]). split; [vm_compute; reflexivity|].
  do 3 (split; [vm_compute; reflexivity|]). split; [vm_compute; reflexivity|].
  repeat split; vm_compute; reflexivity.
Qed.

(** ** An EOF rule that refills the input *)

Lemma eof_rule_no_reject : rule_no_reject Examples.eof_rule.
Proof. split; [discriminate|]. intros v. exact I. Qed.

Lemma X27_witness :
  at_end Examples.eof_refill = true
  /\ select Examples.eof_refill = Ok Examples.eof_selection Examples.eof_refill
  /\ at_end Examples.eof_refilled = false
  /\ scan Examples.eof_refill
     = Ok (VStr "refilled") (set_rejectedRules [] Examples.eof_refilled).
Proof.
  split; [reflexivity|]. split; [vm_compute; reflexivity|]. split; [reflexivity|].
  apply (X27_untraced_eof_rule_rechecks_end Examples.eof_refill Examples.eof_selection
           Examples.eof_refill Examples.eof_rule (VStr "refilled") Examples.eof_refilled).
  - reflexivity.
  - reflexivity.
  - vm_compute; reflexivity.
  - reflexivity.
  - exact eof_rule_no_reject.
  - vm_compute; reflexivity.
  - reflexivity.
Defined.

(** ** An EOF rule on a scanner that traces *)

(** C4.  On a scanner with tracing on, the one rule [<<EOF>>] (default
    action) and an empty source, the pass begins at the end of the input and
    selects the EOF rule; its action calls no [reject()] and would leave the
    cursor at the end of the source.  The pass does not return EOF:
    [logAccept] reads the source of the [null] expression of the rule and
    the pass throws a [TypeError] before the action has run.  With tracing
    off the same pass returns EOF and resets the runtime state. *)
Theorem C4_traced_eof_rule_throws_before_action :
  debugEnabled Examples.eof_traced = true
  /\ at_end Examples.eof_traced = true
  /\ select Examples.eof_traced = Ok Examples.plain_eof_selection Examples.eof_traced
  /\ isEOF Examples.plain_eof_rule = true
  /\ rule_no_reject Examples.plain_eof_rule
  /\ (exists v l2,
        run_rule_action Examples.plain_eof_rule
          (before_action Examples.plain_eof_selection Examples.eof_traced) = Ok v l2
        /\ at_end l2 = true)
  /\ (exists msg, scan Examples.eof_traced = Throw (TypeError msg) Examples.eof_traced)
  /\ exists l3,
       scan (set_debugEnabled false Examples.eof_traced) = Ok EOF l3 /\ is_reset l3.
Proof.
  split; [reflexivity|]. split; [reflexivity|]. split; [vm_compute; reflexivity|].
  split; [reflexivity|]. split; [exact I|].
  split; [eexists _, _; split; [reflexivity|vm_compute; reflexivity]|].
  split; [eexists; vm_compute; reflexivity|].
  eexists. split; [vm_compute; reflexivity|]. repeat split.
Qed.

(** ** A rule that matches the empty string *)

(** C5 as stated fails: [/a*/] is the only rule, it is not an EOF rule, it
    carries no anchor flag and it matches the empty string at the cursor of
    ['b'], yet the selector returns no rule and the pass echoes ['b'] by the
    default rule. *)
Lemma C5_counterexample :
  at_end Examples.star_rule = false
  /\ exists r,
       active_rules Examples.star_rule = [r]
       /\ isEOF r = false /\ hasBOL r = false /\ hasEOL r = false
       /\ candidate Examples.star_rule (active_rules Examples.star_rule) 0 r ""
       /\ effective_length r "" = 0
       /\ select Examples.star_rule = Ok no_selection Examples.star_rule
       /\ matchedRule no_selection = None
       /\ scan Examples.star_rule = Ok VUndefined (default_echo Examples.star_rule)
       /\ output (default_echo Examples.star_rule) = [Some "b"].
Proof.
  split; [reflexivity|]. eexists. split; [vm_compute; reflexivity|].
  repeat split; try (vm_compute; reflexivity).
  eexists. split; vm_compute; reflexivity.
Qed.

Lemma star_rule_matches_nothing_longer (j : nat) (r : Rule) (m : string) :
  candidate Examples.star_rule (active_rules Examples.star_rule) j r m ->
  effective_length r m = 0.
Proof.
  intros (Hlk & _ & re & Hre & Hm).
  destruct j as [|[|j]]; vm_compute in Hlk; try discriminate.
  injection Hlk as <-. vm_compute in Hre. injection Hre as <-.
  vm_compute in Hm. injection Hm as <-. reflexivity.
Qed.

Lemma star_rule_has_expressions (j : nat) (r : Rule) :
  active_rules Examples.star_rule !! j = Some r ->
  is_rejected j Examples.star_rule = false ->
  expression r <> None.
Proof.
  intros Hlk _. destruct j as [|[|j]]; vm_compute in Hlk; try discriminate.
  injection Hlk as <-. discriminate.
Qed.

Lemma C5_witness :
  at_end Examples.star_rule = false
  /\ select Examples.star_rule = Ok no_selection Examples.star_rule
  /\ scan Examples.star_rule = Ok VUndefined (default_echo Examples.star_rule).
Proof.
  split; [reflexivity|].
  apply (proj2 (C5_zero_length_match_not_selected Examples.star_rule eq_refl)).
  - exact star_rule_matches_nothing_longer.
  - exact star_rule_has_expressions.
Defined.

(** ** Echo of every character *)

Lemma C6_witness :
  rules newLexer = ∅
  /\ readMore newLexer = false
  /\ exists l',
       (setSource Examples.bla_bla_bla;;; lexAll 12) newLexer = Ok [] l'
       /\ output l' = output newLexer ++ single_chars Examples.bla_bla_bla.
Proof.
  split; [reflexivity|]. split; [reflexivity|].
  apply (C6_no_rules_echo_each_character newLexer Examples.bla_bla_bla 12).
  - reflexivity.
  - reflexivity.
  - apply Nat.ltb_lt. reflexivity.
Defined.

(** ** [unput] and [addState] on arguments they are not documented for *)

(** C8 as stated fails: [unput(5)] raises nothing; with the source ['ab']
    and the cursor at 1 the source becomes ['a5b']. *)
Lemma C8_counterexample :
  js_is_string (VNum 5) = false
  /\ source Examples.cursor_at_one = "ab"
  /\ index Examples.cursor_at_one = 1
  /\ exists l',
       unput (VNum 5) Examples.cursor_at_one = Ok tt l'
       /\ source l' = "a5b" /\ index l' = 1.
Proof.
  repeat split; try reflexivity. eexists. split; [vm_compute; reflexivity|].
  split; vm_compute; reflexivity.
Qed.

Lemma C8_witness :
  0 <= index Examples.cursor_at_one
  /\ js_to_string (VBool true) = Some "true"
  /\ (js_is_string (VBool true) = true -> VBool true = VStr "true")
  /\ exists l',
       unput (VBool true) Examples.cursor_at_one = Ok tt l'
       /\ chars (source l')
          = take (Z.to_nat (index Examples.cursor_at_one)) (chars (source Examples.cursor_at_one))
            ++ chars "true"
            ++ drop (Z.to_nat (index Examples.cursor_at_one)) (chars (source Examples.cursor_at_one))
       /\ index l' = index Examples.cursor_at_one.
Proof.
  assert (H : 0 <= index Examples.cursor_at_one) by (vm_compute; discriminate).
  split; [exact H|]. split; [reflexivity|].
  exact (C8_unput_splices_without_type_check Examples.cursor_at_one (VBool true) "true"
           H eq_refl).
Defined.

(** C9 as stated fails: ['123'] is no identifier and [addDefinition]
    refuses it, but [addState('123')] raises nothing and registers the
    state. *)
Lemma C9_counterexample :
  is_identifier "123" = false
  /\ idRegExp_test "123" = false
  /\ (exists e l', addDefinition (VStr "123") (ExprString "x") newLexer = Throw e l')
  /\ exists l',
       addState "123" false newLexer = Ok tt l'
       /\ states l' !! "123" = Some (mkState "123" false).
Proof.
  split; [reflexivity|]. split; [reflexivity|].
  split; [eexists _, _; reflexivity|].
  eexists. split; [reflexivity|]. vm_compute; reflexivity.
Qed.

(** ** A state that is not registered *)

Lemma X26_witness :
  states newLexer !! "comment" = None
  /\ (exists msg, pushState (Some "comment") newLexer = Throw (Error msg) newLexer)
  /\ (exists msg, begin (Some "comment") newLexer = Throw (Error msg) newLexer).
Proof.
  assert (H : states newLexer !! "comment" = None) by (vm_compute; reflexivity).
  split; [exact H|].
  apply (X26_unknown_state_throws_unchanged newLexer "comment" H eq_refl); discriminate.
Defined.

(** C10.  On a fresh scanner the only registered state is [INITIAL];
    [constructor] and [toString] are not registered.  Yet [begin('constructor')]
    and [pushState('toString')] throw nothing: the registration test
    [!this.states[newState]] finds the member of that name that the object
    inherits from [Object.prototype], and the calls change the active state
    and the state stack. *)
Theorem C10_inherited_name_passes_registration_check :
  (forall s st, states newLexer !! s = Some st -> s = STATE_INITIAL)
  /\ states newLexer !! "constructor" = None
  /\ states newLexer !! "toString" = None
  /\ begin (Some "constructor") newLexer = Ok tt (set_state "constructor" newLexer)
  /\ state (set_state "constructor" newLexer) <> state newLexer
  /\ pushState (Some "toString") newLexer
     = Ok tt (set_state "toString" (set_stateStack [STATE_INITIAL] newLexer))
  /\ stateStack (set_state "toString" (set_stateStack [STATE_INITIAL] newLexer))
     <> stateStack newLexer.
Proof.
  split.
  { intros s st H.
    change (states newLexer) with (<[STATE_INITIAL := mkState STATE_INITIAL false]>
                                     (∅ : gmap string StateRec)) in H.
    apply lookup_insert_Some in H as [[<- _]|[_ H]]; [reflexivity|].
    rewrite lookup_empty in H. discriminate. }
  split; [vm_compute; reflexivity|]. split; [vm_compute; reflexivity|].
  split; [vm_compute; reflexivity|]. split; [discriminate|].
  split; [vm_compute; reflexivity|]. discriminate.
Qed.

(** ** The further properties at work *)

Lemma multiple_rejects_widths :
  literal_widths_exact Examples.multiple_rejects (active_rules Examples.multiple_rejects).
Proof.
  intros j r m w (Hlk & _ & re & Hre & Hm) Hw.
  destruct j as [|[|[|[|[|j]]]]]; vm_compute in Hlk; try discriminate;
    injection Hlk as <-; vm_compute in Hre; injection Hre as <-;
    vm_compute in Hm; injection Hm as <-; vm_compute in Hw; try discriminate;
    injection Hw as <-; repeat split.
Qed.

Lemma X1_witness :
  at_end Examples.multiple_rejects = false
  /\ matchedValue (Examples.selected Examples.multiple_rejects) = "abcd"
  /\ exists i,
       matchedIndex (Examples.selected Examples.multiple_rejects) = Some i
       /\ candidate Examples.multiple_rejects (active_rules Examples.multiple_rejects) i
            (Examples.selected_rule Examples.multiple_rejects)
            (matchedValue (Examples.selected Examples.multiple_rejects))
       /\ forall j r' m',
            candidate Examples.multiple_rejects (active_rules Examples.multiple_rejects) j r' m' ->
            effective_length r' m'
            <= effective_length (Examples.selected_rule Examples.multiple_rejects)
                 (matchedValue (Examples.selected Examples.multiple_rejects))
            /\ (effective_length r' m'
                = effective_length (Examples.selected_rule Examples.multiple_rejects)
                    (matchedValue (Examples.selected Examples.multiple_rejects)) ->
                (i <= j)%nat).
Proof.
  split; [reflexivity|]. split; [vm_compute; reflexivity|].
  apply (X1_longest_match_earliest_rule Examples.multiple_rejects
           (Examples.selected Examples.multiple_rejects) Examples.multiple_rejects).
  - reflexivity.
  - exact multiple_rejects_widths.
  - vm_compute; reflexivity.
  - vm_compute; reflexivity.
Defined.

Lemma X2_witness :
  rejectedRules Examples.abcd_rejected = [Some 3%nat]
  /\ matchedIndex (Examples.selected Examples.abcd_rejected) = Some 2%nat
  /\ Some 2%nat ∉ rejectedRules Examples.abcd_rejected.
Proof.
  split; [vm_compute; reflexivity|]. split; [vm_compute; reflexivity|].
  apply (X2_rejected_rule_not_selected Examples.abcd_rejected
           (Examples.selected Examples.abcd_rejected) Examples.abcd_rejected).
  - vm_compute; reflexivity.
  - vm_compute; reflexivity.
Defined.

Lemma X3_witness :
  at_end Examples.eof_refill = true
  /\ exists sel,
       select Examples.eof_refill = Ok sel Examples.eof_refill
       /\ match matchedIndex sel with
          | Some k =>
              exists r, active_rules Examples.eof_refill !! k = Some r
                        /\ matchedRule sel = Some r
                        /\ isEOF r = true /\ (Some k ∉ rejectedRules Examples.eof_refill)
                        /\ matchedValue sel = ""
                        /\ forall j r', (j < k)%nat ->
                                        active_rules Examples.eof_refill !! j = Some r' ->
                                        isEOF r' = true ->
                                        Some j ∈ rejectedRules Examples.eof_refill
          | None =>
              sel = no_selection
              /\ forall j r', active_rules Examples.eof_refill !! j = Some r' ->
                              isEOF r' = true -> Some j ∈ rejectedRules Examples.eof_refill
          end.
Proof.
  split; [reflexivity|].
  apply (X3_end_of_input_selects_first_eof_rule Examples.eof_refill). reflexivity.
Defined.

Lemma zap_me_has_no_eof_rule (j : nat) (r : Rule) :
  active_rules Examples.zap_me_at_end !! j = Some r ->
  isEOF r = true ->
  Some j ∈ rejectedRules Examples.zap_me_at_end.
Proof.
  intros Hlk Heof. destruct j as [|[|j]]; vm_compute in Hlk; try discriminate.
  injection Hlk as <-. discriminate.
Qed.

Lemma X4_witness :
  at_end Examples.zap_me_at_end = true
  /\ exists l',
       scan Examples.zap_me_at_end = Ok EOF l'
       /\ is_reset l' /\ same_config Examples.zap_me_at_end l'
       /\ output l' = output Examples.zap_me_at_end.
Proof.
  split; [reflexivity|].
  apply (X4_end_of_input_without_eof_rule_terminates Examples.zap_me_at_end).
  - reflexivity.
  - exact zap_me_has_no_eof_rule.
Defined.

Lemma echo_reject_rejects_once : rejects_once Examples.act_echo_reject.
Proof.
  right. split; [reflexivity|]. intros _. left. split; [reflexivity|]. intros _. exact I.
Qed.

Lemma X5_witness :
  matchedValue (Examples.selected Examples.multiple_rejects) = "abcd"
  /\ exists l2,
       scan Examples.multiple_rejects = Ok VUndefined l2
       /\ index l2 = index Examples.multiple_rejects
       /\ source l2 = source Examples.multiple_rejects
       /\ state l2 = state Examples.multiple_rejects
       /\ text l2 = Some (carried_text Examples.multiple_rejects
                          +:+ matchedValue (Examples.selected Examples.multiple_rejects))
       /\ rejectedRules l2
          = rejectedRules Examples.multiple_rejects
            ++ [matchedIndex (Examples.selected Examples.multiple_rejects)].
Proof.
  split; [reflexivity|].
  apply (X5_rejecting_pass_rewinds_cursor Examples.multiple_rejects
           (Examples.selected Examples.multiple_rejects) Examples.multiple_rejects
           (Examples.selected_rule Examples.multiple_rejects) Examples.act_echo_reject).
  - vm_compute; reflexivity.
  - vm_compute; reflexivity.
  - reflexivity.
  - vm_compute; reflexivity.
  - exact echo_reject_rejects_once.
Defined.

Lemma X6_witness :
  readMore Examples.mega_carried = true
  /\ text Examples.mega_carried = Some "mega-"
  /\ matchedValue (Examples.selected Examples.mega_carried) = "kludge"
  /\ exists l2,
       scan Examples.mega_carried = Ok VUndefined l2
       /\ text l2 = Some ("mega-" +:+ matchedValue (Examples.selected Examples.mega_carried))
       /\ readMore l2 = false
       /\ rejectedRules l2 = [].
Proof.
  split; [reflexivity|]. split; [vm_compute; reflexivity|]. split; [vm_compute; reflexivity|].
  apply (X6_more_appends_next_match Examples.mega_carried "mega-"
           (Examples.selected Examples.mega_carried) Examples.mega_carried
           (Examples.selected_rule Examples.mega_carried)).
  - vm_compute; reflexivity.
  - reflexivity.
  - vm_compute; reflexivity.
  - vm_compute; reflexivity.
  - vm_compute; reflexivity.
  - reflexivity.
  - vm_compute; reflexivity.
Defined.

Lemma unput_foobar_no_reject : rule_no_reject (Examples.selected_rule Examples.unput_foobar).
Proof. vm_compute. split; [discriminate|]. intros v. exact I. Qed.

Lemma X7_witness :
  at_end Examples.unput_foobar = false
  /\ scan Examples.unput_foobar
     = Ok VUndefined (set_rejectedRules [] Examples.foobar_unput).
Proof.
  split; [reflexivity|].
  apply (X7_pass_before_end_returns_action_value Examples.unput_foobar
           (Examples.selected Examples.unput_foobar) Examples.unput_foobar
           (Examples.selected_rule Examples.unput_foobar) VUndefined Examples.foobar_unput).
  - reflexivity.
  - reflexivity.
  - vm_compute; reflexivity.
  - vm_compute; reflexivity.
  - exact unput_foobar_no_reject.
  - vm_compute; reflexivity.
Defined.

Lemma X8_witness :
  state Examples.pending_in_comment = "comment"
  /\ rules Examples.pending_in_comment !! "INITIAL" <> None
  /\ active_rules Examples.pending_in_comment = []
  /\ readMore Examples.pending_in_comment = true
  /\ index Examples.pending_in_comment = 1
  /\ exists l',
       lex 2 Examples.pending_in_comment = Ok EOF l'
       /\ output l' = output Examples.pending_in_comment ++ [Some "ab"]
       /\ same_config Examples.pending_in_comment l'
       /\ is_reset l'.
Proof.
  split; [vm_compute; reflexivity|]. split; [vm_compute; discriminate|].
  split; [vm_compute; reflexivity|]. split; [reflexivity|]. split; [reflexivity|].
  apply (X8_state_without_rules_echoes_input Examples.pending_in_comment 2).
  - vm_compute; reflexivity.
  - vm_compute; discriminate.
  - apply Nat.ltb_lt. vm_compute; reflexivity.
Defined.

Lemma X9_witness :
  text Examples.foobar_matched = Some "foobar"
  /\ index Examples.foobar_matched = 6
  /\ exists t' l',
       less 3 Examples.foobar_matched = Ok tt l'
       /\ text l' = Some t'
       /\ chars t' = take (Z.to_nat 3) (chars "foobar")
       /\ js_length t' = 3
       /\ index l' = index Examples.foobar_matched - (js_length "foobar" - 3)
       /\ source l' = source Examples.foobar_matched.
Proof.
  assert (H : text Examples.foobar_matched = Some "foobar") by (vm_compute; reflexivity).
  split; [exact H|]. split; [vm_compute; reflexivity|].
  apply (proj2 (X9_less_keeps_prefix_and_rewinds Examples.foobar_matched "foobar" 3 H)).
  split; vm_compute; discriminate.
Defined.

Lemma X10_witness :
  0 <= index Examples.cursor_at_one
  /\ exists v l',
       input (Some 5) Examples.cursor_at_one = Ok v l'
       /\ chars v = take (Z.to_nat 5)
                         (drop (Z.to_nat (index Examples.cursor_at_one))
                               (chars (source Examples.cursor_at_one)))
       /\ index l' = index Examples.cursor_at_one + js_length v
       /\ source l' = source Examples.cursor_at_one
       /\ (at_end Examples.cursor_at_one = true ->
           v = "" /\ index l' = index Examples.cursor_at_one).
Proof.
  assert (H : 0 <= index Examples.cursor_at_one) by (vm_compute; discriminate).
  split; [exact H|].
  exact (X10_input_reads_from_cursor Examples.cursor_at_one (Some 5) H).
Defined.

Lemma X11_witness :
  cursor_ok Examples.cursor_at_one
  /\ exists l',
       (unput (VStr "xy");;; input (Some (js_length "xy"))) Examples.cursor_at_one = Ok "xy" l'
       /\ index l' = index Examples.cursor_at_one + js_length "xy"
       /\ chars (source l')
          = take (Z.to_nat (index Examples.cursor_at_one)) (chars (source Examples.cursor_at_one))
            ++ chars "xy"
            ++ drop (Z.to_nat (index Examples.cursor_at_one)) (chars (source Examples.cursor_at_one)).
Proof.
  assert (H : cursor_ok Examples.cursor_at_one) by (split; vm_compute; discriminate).
  split; [exact H|].
  exact (X11_unput_then_input_reads_back Examples.cursor_at_one "xy" H).
Defined.

Lemma X12_witness :
  exists l1,
    pushState (Some "comment") Examples.with_comment = Ok tt l1
    /\ state l1 = "comment"
    /\ stateStack l1 = stateStack Examples.with_comment ++ [state Examples.with_comment]
    /\ topState l1 = Ok (Some (state Examples.with_comment)) l1
    /\ popState l1 = Ok tt Examples.with_comment.
Proof.
  apply (X12_pushState_popState_round_trip Examples.with_comment "comment"
           (mkState "comment" true) (mkState STATE_INITIAL false)).
  - vm_compute; reflexivity.
  - vm_compute; reflexivity.
Defined.



Lemma X14_witness : escapeRegExp "a.b" = escapeRegExp "a.b" /\ "a.b" = "a.b".
Proof.
  split; [reflexivity|].
  apply (X14_escapeRegExp_injective "a.b" "a.b"). reflexivity.
Defined.

Lemma X17_witness :
  exists l',
    addDefinition (VStr "1st-DIGIT") (ExprString "0.") newLexer = Ok tt l'
    /\ assoc_get "1st-DIGIT" (definitions l') = Some (escapeRegExp "0.")
    /\ (forall n', n' <> "1st-DIGIT" ->
                   assoc_get n' (definitions l') = assoc_get n' (definitions newLexer))
    /\ states l' = states newLexer /\ rules l' = rules newLexer
    /\ source l' = source newLexer /\ index l' = index newLexer
    /\ state l' = state newLexer.
Proof.
  apply (X17_addDefinition_stores_escaped_literal newLexer "1st-DIGIT" "0.").
  - exists "s"%char. split; [|reflexivity]. vm_compute. tauto.
  - discriminate.
  - discriminate.
  - discriminate.
Defined.

Lemma X19_witness : Examples.refused = newLexer.
Proof.
  apply (X19_refused_rule_changes_nothing (StatesName "nope") (ExprString "x") None
           newLexer Examples.refusal Examples.refused).
  vm_compute; reflexivity.
Defined.

(** The exception that is not among the checks: with the states [INITIAL]
    and [constructor] given, [INITIAL] has received the rule when [push]
    throws on [constructor]. *)
Example addStateRule_is_not_atomic :
  exists msg l',
    addStateRule (StatesList ["INITIAL"; "constructor"]) (ExprString "x") None newLexer
    = Throw (TypeError msg) l'
    /\ rules newLexer !! "INITIAL" = None
    /\ exists rule, rules l' !! "INITIAL" = Some [rule].
Proof.
  eexists _, _. split; [vm_compute; reflexivity|].
  split; [vm_compute; reflexivity|]. eexists. vm_compute. reflexivity.
Qed.




Lemma reject_only_rules (r : Rule) :
  r ∈ active_rules Examples.reject_only -> rejecting_rule r.
Proof.
  assert (H : active_rules Examples.reject_only
              = [Examples.selected_rule Examples.reject_only]) by (vm_compute; reflexivity).
  rewrite H. intros ->%list_elem_of_singleton.
  split; [vm_compute; discriminate|].
  split; [reflexivity|].
  exists VUndefined. vm_compute. reflexivity.
Qed.

Lemma X23_witness :
  exists l', lex 4 Examples.reject_only = Ok EOF l'
    /\ output l' = [Some "a"; Some "a"]
    /\ same_config Examples.reject_only l' /\ is_reset l'.
Proof.
  apply (X23_rejecting_rules_exhaust Examples.reject_only 4).
  - reflexivity.
  - reflexivity.
  - vm_compute; discriminate.
  - exact reject_only_rules.
  - vm_compute. lia.
Defined.


Lemma X25_witness :
  lexAll 6 Examples.words = Ok [VStr "A"; VStr "B"; VStr "A"] (run_on (lexAll 6) Examples.words)
  /\ VStr "B" <> VUndefined /\ is_EOF (VStr "B") = false.
Proof.
  assert (H : lexAll 6 Examples.words
              = Ok [VStr "A"; VStr "B"; VStr "A"] (run_on (lexAll 6) Examples.words))
    by (vm_compute; reflexivity).
  split; [exact H|].
  apply (X25_lexAll_collects_tokens_only 6 Examples.words (run_on (lexAll 6) Examples.words)
           [VStr "A"; VStr "B"; VStr "A"] H).
  right; left.
Defined.
